(** * The chat route of the retrieval-augmented assistant

    A shallow embedding of [src/app/api/chat/route.ts]: the greeting
    classifier, the persona selection, the similarity query, the prompt
    composition and the [POST] handler with its four external calls
    (embedding provider, vector store, completion provider, memory store).

    JavaScript strings are sequences of UTF-16 code units, values are the
    values that [JSON.parse] can produce plus [undefined], and the handler
    runs in a small monad that records every external call in a trace and
    propagates exceptions to the handler's [catch] block. Numbers that the
    handler computes with are IEEE 754 doubles ([SpecFloat], binary64). *)

From Stdlib Require Import List String Ascii Bool NArith ZArith QArith Lia SpecFloat.
From Stdlib Require Import Sorting.Sorted Sorting.Permutation.
Import ListNotations.

Set Implicit Arguments.
Local Open Scope N_scope.

(** ** JavaScript strings *)

(** A string is its sequence of UTF-16 code units. *)
Definition jsstring := list N.

(** ASCII text written as a literal. *)
Definition u (s : string) : jsstring :=
  List.map N_of_ascii (list_ascii_of_string s).

Fixpoint jsstring_eqb (a b : jsstring) : bool :=
  match a, b with
  | [], [] => true
  | x :: a', y :: b' => (x =? y) && jsstring_eqb a' b'
  | _, _ => false
  end.

(** [Array.prototype.join] on an array of strings. *)
Fixpoint join (sep : jsstring) (parts : list jsstring) : jsstring :=
  match parts with
  | [] => []
  | [p] => p
  | p :: rest => p ++ sep ++ join sep rest
  end.

(** White space and line terminators, as [String.prototype.trim] and the
    regular expression class [\s] understand them. *)
Definition is_space (c : N) : bool :=
  ((9 <=? c) && (c <=? 13)) || (c =? 32) || (c =? 160) || (c =? 5760)
  || ((8192 <=? c) && (c <=? 8202)) || (c =? 8232) || (c =? 8233)
  || (c =? 8239) || (c =? 8287) || (c =? 12288) || (c =? 65279).

Fixpoint trim_start (s : jsstring) : jsstring :=
  match s with
  | c :: rest => if is_space c then trim_start rest else s
  | [] => []
  end.

Definition trim (s : jsstring) : jsstring :=
  rev (trim_start (rev (trim_start s))).

(** Lower-casing of one code unit.  Inside ASCII and Latin-1 the mapping is
    the Unicode one.  Outside, the two code points whose lower-case form
    holds an ASCII letter are listed (U+0130 and the Kelvin sign U+212A);
    every other code unit lower-cases to code units that are neither ASCII
    nor white space, which the greeting patterns cannot tell from the
    original, so it is left as it is. *)
Definition lower_unit (c : N) : list N :=
  if (65 <=? c) && (c <=? 90) then [c + 32]
  else if (192 <=? c) && (c <=? 222) && negb (c =? 215) then [c + 32]
  else if c =? 304 then [105; 775]
  else if c =? 8490 then [107]
  else [c].

Definition toLowerCase (s : jsstring) : jsstring := flat_map lower_unit s.

(** ** Regular expressions

    The fragment used by the greeting patterns: literal text, ordered
    alternation, sequence, [\s] and [$]; every pattern is anchored by [^] and
    carries the [i] flag. *)
#[warnings="-register-all"] Inductive regex : Type :=
| Chars (w : jsstring)
| Alt (rs : list regex)
| Seq (r1 r2 : regex)
| WhiteSpace
| EndOfInput.

(** Canonicalisation under the [i] flag (without [u]): a code unit is
    upper-cased, and a code unit outside ASCII is never mapped into ASCII. *)
Definition canonicalize (c : N) : N :=
  if (97 <=? c) && (c <=? 122) then c - 32 else c.

Fixpoint strip_prefix_ci (w s : jsstring) : option jsstring :=
  match w, s with
  | [], _ => Some s
  | a :: w', c :: s' =>
      if canonicalize a =? canonicalize c then strip_prefix_ci w' s' else None
  | _ :: _, [] => None
  end.

(** Backtracking matcher: [rmatch r s k] tries [r] at the front of [s] and
    hands what is left to the continuation [k]; alternatives are tried in
    order. *)
Fixpoint rmatch (r : regex) (s : jsstring) (k : jsstring -> bool) : bool :=
  match r with
  | Chars w =>
      match strip_prefix_ci w s with Some rest => k rest | None => false end
  | Alt rs =>
      (fix any (l : list regex) : bool :=
         match l with
         | [] => false
         | r' :: l' => rmatch r' s k || any l'
         end) rs
  | Seq r1 r2 => rmatch r1 s (fun rest => rmatch r2 rest k)
  | WhiteSpace =>
      match s with c :: rest => is_space c && k rest | [] => false end
  | EndOfInput =>
      match s with [] => k [] | _ :: _ => false end
  end.

(** [pattern.test(s)] for a pattern that starts with [^]: only position 0 is
    tried. *)
Definition test (pattern : regex) (s : jsstring) : bool :=
  rmatch pattern s (fun _ => true).

(** ** Greeting classifier *)

Definition greetingPatterns : list regex :=
  [ Seq (Alt (List.map Chars
           [u "hi"; u "hello"; u "hey"; u "good morning"; u "good afternoon";
            u "good evening"; u "greetings"]))
        (Alt [WhiteSpace; EndOfInput]);
    Seq (Alt (List.map Chars
           [u "how are you"; u "what's up"; u "wassup"; u "sup"]))
        (Alt [Chars (u "?"); WhiteSpace; EndOfInput]);
    Seq (Alt (List.map Chars [u "hola"; u "bonjour"; u "hallo"; u "ciao"]))
        (Alt [WhiteSpace; EndOfInput]) ].

Definition isGreeting (query : jsstring) : bool :=
  existsb (fun pattern => test pattern (toLowerCase (trim query)))
          greetingPatterns.

(** ** Values

    What [JSON.parse] can produce, and [undefined]. Object literals built by
    the handler are [VObj] too. *)
#[warnings="-register-all"] Inductive value : Type :=
| VUndefined
| VNull
| VBool (b : bool)
| VNum (q : Q)
| VStr (s : jsstring)
| VArr (items : list value)
| VObj (fields : list (jsstring * value)).

(** Own property of an object; of two fields with one key the later one
    wins, as in [JSON.parse] and in object literals. *)
Definition own_property (key : jsstring) (fields : list (jsstring * value)) : value :=
  fold_left (fun found kv => if jsstring_eqb (fst kv) key then snd kv else found)
            fields VUndefined.

(** [SameValueZero], the comparison of [Array.prototype.includes]. Arrays and
    objects compare by identity, and one that came with the request is never
    identical to a literal of the handler. *)
Definition same_value_zero (a b : value) : bool :=
  match a, b with
  | VUndefined, VUndefined => true
  | VNull, VNull => true
  | VBool x, VBool y => Bool.eqb x y
  | VNum x, VNum y => Qeq_bool x y
  | VStr x, VStr y => jsstring_eqb x y
  | _, _ => false
  end.

Definition includes (items : list value) (v : value) : bool :=
  existsb (fun item => same_value_zero item v) items.

(** ** Results of evaluation: a value, or a thrown exception *)
Inductive outcome (A : Type) : Type :=
| Returned (a : A)
| Thrown.
Arguments Thrown {A}.

(** [v.key] for the keys the handler reads ([messages], [userId], [persona],
    [content], [role]): none of them is a property of a prototype, so on a
    string, number, boolean or array the result is [undefined]; on
    [undefined] and [null] the access throws a TypeError. *)
Definition prop (key : jsstring) (v : value) : outcome value :=
  match v with
  | VUndefined | VNull => Thrown
  | VObj fields => Returned (own_property key fields)
  | _ => Returned VUndefined
  end.

(** The object literal [{ role, content }]. *)
Definition message (role content : value) : value :=
  VObj [(u "role", role); (u "content", content)].

(** ** Personas and system prompts *)
Inductive Persona : Type := general | roleplay.

(** The [general] entry of [SYSTEM_PROMPTS]. *)
Definition general_template : jsstring :=
  u "You are a specialized assistant with the following guidelines:

1. Conversational Approach:
   - Maintain a friendly and natural dialog flow
   - Use a warm, approachable tone
   - Show genuine interest in user questions
   - Engage in a way that encourages continued conversation

2. Content Restrictions:
   - Base all responses strictly on the provided context and conversation history
   - Do not use any external knowledge
   - Avoid making assumptions beyond what is explicitly stated
   - Format numerical data and statistics exactly as they appear in the context

3. Response Guidelines:
   - When information is available: Provide accurate answers while maintaining a conversational tone
   - When information is missing: Say "
  ++ [34]
  ++ u "I wish I could help with that, but I don't have enough information in the provided documentation to answer your question. Is there something else you'd like to know about?"
  ++ [34]
  ++ u "
   - For follow-up questions: Verify that previous responses were based on documented content

4. Quality Standards:
   - Ensure accuracy while remaining approachable
   - Balance professionalism with conversational friendliness
   - Maintain consistency in information provided
   - Keep responses clear and engaging".

(** The [roleplay] entry of [SYSTEM_PROMPTS]. *)
Definition roleplay_template : jsstring :=
  u "
This Teach-Back is an activity where the user practices a skill they just learned in an online course. Refer to the course storyboard as well as the course assessment to provide you with context. This activity will be scored and should reference only the material in the uploaded documents. You may reference other material in your feedback, but the scoring should be based solely on the course content. This activity is in section 2.2 of course 103. I have outlined how the activity is structured below.

When the user clicks "
  ++ [34]
  ++ u "begin,"
  ++ [34]
  ++ u " briefly describe the activity as a teach-back in which they'll receive personalized feedback based on their answer. Also, state the two rubric areas (Comprehensiveness and Clarity & Structure, each accounting for 4 points) and what a passing score is. Then, show the question: "
  ++ [34]
  ++ u "Explain how drug pricing benchmarks impact pharmacy costs and reimbursement, and why this matters in pharmacy benefits consulting."
  ++ [34]
  ++ u "

After they submit their answer, grade them based on the rubric below and show them their score in each rubric area, along with what could be improved. Continue providing guidance to refine their answer until they achieve a score of 8/8, then summarize their response into a final statement and congratulate them. Instruct them to proceed in the course.

When a user clicks "
  ++ [34]
  ++ u "instructions,"
  ++ [34]
  ++ u " explain in detail how the activity works and highlight that they are aiming for mastery, and you will support them in achieving it. Show the full rubric and what their response should include (the 3 bullets below).

The user's response should include:

"
  ++ [10004]
  ++ u " A clear explanation of key drug pricing benchmarks (AWP, WAC, MAC, NADAC) and how they function.

"
  ++ [10004]
  ++ u " An analysis of how these benchmarks influence pharmacy costs and reimbursement structures.

"
  ++ [10004]
  ++ u " A connection to pharmacy benefits consulting, including how understanding benchmarks supports cost management and plan design.

Evaluation Criteria: The user's response will be scored based on the rubric below, with a total of 8 possible points. To pass, they need at least 6 points.

Scoring Rubric (8 Points Total)

Comprehensiveness

4: Clearly defines key drug pricing benchmarks, explains their role in pharmacy costs and reimbursement, and connects them to pharmacy benefits consulting.

3: Mentions key drug pricing benchmarks and cost impact but lacks a full explanation or consulting connection.

2: Provides a vague or incomplete definition of drug pricing benchmarks with little explanation of cost impact or relevance to consulting.

1: Response is unclear, incorrect, or missing key details.

Clarity & Structure

4: Explanation is clear, well-organized, and easy to follow.

3: Mostly clear but could be better structured or more concise.

2: Somewhat unclear or disorganized.

1: Hard to follow or confusing.

"
  ++ [9989]
  ++ u " Passing Score: 6+ out of "
  ++ [10; 10]
  ++ u "Example Response: 
Drug pricing benchmarks are essential in pharmacy benefits consulting as they determine how pharmacies are reimbursed and influence overall drug costs. AWP (Average Wholesale Price) is a benchmark for estimating drug prices, though often inflated. WAC (Wholesale Acquisition Cost) is the manufacturer's list price before rebates. MAC (Maximum Allowable Cost) limits reimbursement for generics, while NADAC (National Average Drug Acquisition Cost) reflects actual pharmacy costs. Consultants use these benchmarks to negotiate pricing, optimize formulary management, and control plan costs effectively.
".

Definition greetings : list jsstring :=
  [ [55357; 56395] ++ u " Hello! How can I assist you today?";
    u "Hi there! " ++ [55357; 56842] ++ u " What can I help you with?";
    [55357; 56395] ++ u " Hey! Ready to help you with any questions!";
    u "Hello! " ++ [55356; 57119] ++ u " How may I be of assistance?";
    u "Hi! " ++ [55357; 56835] ++ u " Looking forward to helping you today!" ].

Definition SYSTEM_PROMPTS (persona : Persona) : jsstring :=
  match persona with
  | general => general_template
  | roleplay => roleplay_template
  end.

Definition isValidPersona (persona : value) : bool :=
  includes [VStr (u "general"); VStr (u "roleplay")] persona.

(** The narrowing of the type guard: a value that passed [isValidPersona] as
    a [Persona]. *)
Definition as_Persona (persona : value) : Persona :=
  if same_value_zero (VStr (u "roleplay")) persona then roleplay else general.

(** [persona: rawPersona = 'general'] in the destructuring pattern: the
    default replaces [undefined] only. *)
Definition with_default (v default : value) : value :=
  match v with VUndefined => default | _ => v end.

(** [isValidPersona(rawPersona) ? rawPersona : 'general'] *)
Definition select_persona (rawPersona : value) : Persona :=
  if isValidPersona rawPersona then as_Persona rawPersona else general.

(** The template literal that composes the system prompt. *)
Definition compose_system_prompt (persona : Persona) (similarContent : jsstring) : jsstring :=
  SYSTEM_PROMPTS persona ++ [10; 10] ++ u "Documentation Context: " ++ similarContent.

(** ** The similarity query

    [documents_2] holds passages with their vectors.  The operator [<=>] of
    the vector extension (cosine distance) is a parameter; scores are exact
    rationals. *)
Record document : Type := { doc_contents : jsstring; doc_vector : list Q }.

Record row : Type := { contents : jsstring; similarity : Q }.

Section Query.
Variable cosine_distance : list Q -> list Q -> Q.
Variable documents_2 : list document.

(** [SELECT contents, 1 - (vector <=> $1::vector) as similarity
     FROM documents_2] *)
Definition select_from (v : list Q) : list row :=
  List.map (fun d => {| contents := doc_contents d;
                        similarity := 1 - cosine_distance (doc_vector d) v |})
           documents_2.

(** [WHERE 1 - (vector <=> $1::vector) > 0.7] *)
Definition above_threshold (r : row) : bool :=
  negb (Qle_bool (similarity r) (7 # 10)).

(** [ORDER BY similarity DESC]; rows with equal scores keep the order of
    the table. *)
Fixpoint insert_desc (r : row) (sorted : list row) : list row :=
  match sorted with
  | [] => [r]
  | x :: rest =>
      if Qle_bool (similarity x) (similarity r)
      then r :: sorted
      else x :: insert_desc r rest
  end.

Definition order_by_similarity_desc (rows : list row) : list row :=
  fold_right insert_desc [] rows.

(** [LIMIT 5] *)
Definition limit (n : nat) (rows : list row) : list row := firstn n rows.

Definition similarity_query (v : list Q) : list row :=
  limit 5 (order_by_similarity_desc (filter above_threshold (select_from v))).
End Query.

(** ** Numbers

    A JavaScript Number is a double: [spec_float] at precision 53 and
    maximal exponent 1024, where [SFmul 53 1024] is [*], rounded to the
    nearest double, ties to even. *)

(** The Number of an array length. *)
Definition Number_of_nat (n : nat) : spec_float :=
  binary_normalize 53 1024 (Z.of_nat n) 0 false.

(** [Math.floor(x)], as the integer that the result stands for; [None] for
    [NaN] and the infinities, which [Math.floor] returns unchanged. *)
Definition Math_floor (x : spec_float) : option Z :=
  match x with
  | S754_zero _ => Some 0%Z
  | S754_finite s m e => Some (Z.shiftl (if s then Zneg m else Zpos m) e)
  | S754_infinity _ => None
  | S754_nan => None
  end.




(** ** External calls and the world they reach *)

(** One constructor per external call, with the arguments the handler
    passes. *)
Inductive call : Type :=
| EmbeddingsCreate (input : jsstring)
| PoolQuery (vectorString : list Q)
| StreamText (user_id : value) (messages : list value)
| AddMemories (messages : list value) (user_id : value) (mem0ApiKey : value).

(** What lies outside the handler: the providers' answers ([None] and
    [false] stand for a rejected promise), the document table, the random
    source and the process environment. *)
Record World : Type := {
  embeddings_create : jsstring -> option (list (list Q));
  cosine_distance : list Q -> list Q -> Q;
  documents_2 : list document;
  pool_query_fails : list Q -> bool;
  streamText : value -> list value -> option jsstring;
  addMemories : list value -> value -> value -> bool;
  Math_random : spec_float;
  MEM0_API_KEY : value
}.

Inductive Response : Type :=
| DataStreamResponse (stream : jsstring)
| JsonResponse (status : Z) (contentType : jsstring) (body : value).

Record Request : Type := { req_json : outcome value }.

(** ** The handler's monad: a trace of external calls, and exceptions *)
Definition trace := list call.

Definition M (A : Type) : Type := trace -> outcome A * trace.

Definition ret {A : Type} (a : A) : M A := fun t => (Returned a, t).

Definition throw {A : Type} : M A := fun t => (Thrown, t).

Definition bind {A B : Type} (m : M A) (f : A -> M B) : M B :=
  fun t =>
    match m t with
    | (Returned a, t') => f a t'
    | (Thrown, t') => (Thrown, t')
    end.

Definition lift {A : Type} (o : outcome A) : M A := fun t => (o, t).

Definition emit (c : call) : M unit := fun t => (Returned tt, t ++ [c]).

Definition try_catch {A : Type} (body handler : M A) : M A :=
  fun t =>
    match body t with
    | (Returned a, t') => (Returned a, t')
    | (Thrown, t') => handler t'
    end.

Notation "x <- m ;; k" := (bind m (fun x => k))
  (at level 61, m at next level, right associativity).

(** [l[i]] for an integer index: [None] stands for [undefined], the result
    outside the array. *)
Definition index {A : Type} (l : list A) (i : Z) : option A :=
  if (i <? 0)%Z then None else nth_error l (Z.to_nat i).

Fixpoint map_outcome {A B : Type} (f : A -> outcome B) (l : list A) : outcome (list B) :=
  match l with
  | [] => Returned []
  | a :: rest =>
      match f a with
      | Thrown => Thrown
      | Returned b =>
          match map_outcome f rest with
          | Thrown => Thrown
          | Returned bs => Returned (b :: bs)
          end
      end
  end.

(** ** The route *)
Section Route.
Variable w : World.

(** [openai.embeddings.create] and [response.data[0].embedding]. *)
Definition getQueryEmbedding (query : jsstring) : M (list Q) :=
  _ <- emit (EmbeddingsCreate query) ;;
  match embeddings_create w query with
  | None => throw
  | Some [] => throw
  | Some (embedding :: _) => ret embedding
  end.

(** [pool.query] with the statement of the source, then
    [rows.map(row => row.contents).join('\n\n')]. *)
Definition findSimilarContent (embedding : list Q) : M jsstring :=
  _ <- emit (PoolQuery embedding) ;;
  if pool_query_fails w embedding then throw
  else
    let rows := similarity_query (cosine_distance w) (documents_2 w) embedding in
    ret (join [10; 10] (List.map contents rows)).

(** [greetings[Math.floor(Math.random() * greetings.length)]]: the product
    is the double product, and an index that is no element of the array
    gives [undefined]. *)
Definition getGreetingResponse : value :=
  let product :=
    SFmul 53 1024 (Math_random w) (Number_of_nat (List.length greetings)) in
  match Math_floor product with
  | Some i =>
      match index greetings i with
      | Some g => VStr g
      | None => VUndefined
      end
  | None => VUndefined
  end.

Definition call_streamText (user_id : value) (messages : list value) : M jsstring :=
  _ <- emit (StreamText user_id messages) ;;
  match streamText w user_id messages with
  | Some stream => ret stream
  | None => throw
  end.

Definition call_addMemories (messages : list value) (user_id : value) : M unit :=
  _ <- emit (AddMemories messages user_id (MEM0_API_KEY w)) ;;
  if addMemories w messages user_id (MEM0_API_KEY w) then ret tt else throw.

(** [messages[messages.length - 1].content] and [messages.slice(0, -1)].
    Only an array with a last element gets through both lines: on
    [undefined], [null], a number or a boolean the first line throws; on an
    object the call of [slice] throws; on a string the two lines leave
    [userQuery] undefined, on which [isGreeting] throws before anything
    else happens. *)
Definition latest_and_previous (messages : value) : outcome (value * list value) :=
  match messages with
  | VArr items =>
      let m := match index items (Z.of_nat (List.length items) - 1) with
               | Some m => m
               | None => VUndefined
               end in
      match prop (u "content") m with
      | Thrown => Thrown
      | Returned userQuery => Returned (userQuery, removelast items)
      end
  | _ => Thrown
  end.

(** The callback of [previousMessages.map]. *)
Definition role_and_content (msg : value) : outcome value :=
  match prop (u "role") msg, prop (u "content") msg with
  | Returned role, Returned content => Returned (message role content)
  | _, _ => Thrown
  end.

Definition internal_server_error : Response :=
  JsonResponse 500 (u "application/json")
               (VObj [(u "error", VStr (u "Internal Server Error"))]).

(** The branch taken when [isGreeting(userQuery)] holds. *)
Definition greeting_branch (persona : Persona) (userId : value)
           (query : jsstring) (previousMessages : list value) : M Response :=
  let userQuery := VStr query in
  let greetingResponse := getGreetingResponse in
  result <- call_streamText userId
              ([message (VStr (u "system")) (VStr (SYSTEM_PROMPTS persona))]
               ++ previousMessages
               ++ [message (VStr (u "user")) userQuery;
                   message (VStr (u "assistant")) greetingResponse]) ;;
  let greetingMessages :=
    [message (VStr (u "user")) userQuery;
     message (VStr (u "assistant")) greetingResponse] in
  _ <- call_addMemories (previousMessages ++ greetingMessages) userId ;;
  ret (DataStreamResponse result).

(** The rest of the [try] block: embedding, retrieval, prompt, completion,
    memory. *)
Definition regular_branch (persona : Persona) (userId : value)
           (query : jsstring) (previousMessages : list value) : M Response :=
  let userQuery := VStr query in
  embedding <- getQueryEmbedding query ;;
  similarContent <- findSimilarContent embedding ;;
  let systemPrompt := compose_system_prompt persona similarContent in
  mapped <- lift (map_outcome role_and_content previousMessages) ;;
  let updatedMessages :=
    [message (VStr (u "system")) (VStr systemPrompt)]
    ++ mapped
    ++ [message (VStr (u "user")) userQuery] in
  result <- call_streamText userId updatedMessages ;;
  let finalMessages := updatedMessages in
  _ <- call_addMemories finalMessages userId ;;
  ret (DataStreamResponse result).

(** [isGreeting(userQuery)] calls [query.trim()], which throws a TypeError
    unless [userQuery] is a string. *)
Definition POST (req : Request) : M Response :=
  try_catch
    (body <- lift (req_json req) ;;
     messages <- lift (prop (u "messages") body) ;;
     userId <- lift (prop (u "userId") body) ;;
     rawPersona <- lift (prop (u "persona") body) ;;
     let rawPersona := with_default rawPersona (VStr (u "general")) in
     let persona := select_persona rawPersona in
     latest <- lift (latest_and_previous messages) ;;
     let userQuery := fst latest in
     let previousMessages := snd latest in
     match userQuery with
     | VStr query =>
         if isGreeting query
         then greeting_branch persona userId query previousMessages
         else regular_branch persona userId query previousMessages
     | _ => throw
     end)
    (ret internal_server_error).

(** One request, from an empty trace. *)
Definition serve (req : Request) : outcome Response * trace := POST req [].
End Route.

(** ** Reading a request

    What the first lines of the handler extract when none of them throws:
    the user identifier, the persona, the latest query and the messages
    before it. *)
Record turn : Type := {
  turn_userId : value;
  turn_persona : Persona;
  turn_query : jsstring;
  turn_previous : list value
}.

Definition decode (req : Request) : option turn :=
  match req_json req with
  | Thrown => None
  | Returned body =>
      match prop (u "messages") body, prop (u "userId") body, prop (u "persona") body with
      | Returned messages, Returned userId, Returned rawPersona =>
          match latest_and_previous messages with
          | Returned (VStr query, previous) =>
              Some {| turn_userId := userId;
                      turn_persona :=
                        select_persona (with_default rawPersona (VStr (u "general")));
                      turn_query := query;
                      turn_previous := previous |}
          | _ => None
          end
      | _, _, _ => None
      end
  end.

(** ** Kinds of external call *)
Inductive kind : Type := Embedding | VectorStore | Completion | Memory.

Definition kind_of (c : call) : kind :=
  match c with
  | EmbeddingsCreate _ => Embedding
  | PoolQuery _ => VectorStore
  | StreamText _ _ => Completion
  | AddMemories _ _ _ => Memory
  end.

Definition kind_eqb (a b : kind) : bool :=
  match a, b with
  | Embedding, Embedding | VectorStore, VectorStore
  | Completion, Completion | Memory, Memory => true
  | _, _ => false
  end.

(** How many times a kind of call was attempted in a trace. *)
Definition attempts (k : kind) (t : trace) : nat :=
  List.length (filter (fun c => kind_eqb (kind_of c) k) t).

(** ** Shape of a request body

    [interface Message] of the route, and the body the handler destructures:
    [{ messages: Message[], userId: string, persona?: string }]. *)
Definition is_string (v : value) : bool :=
  match v with VStr _ => true | _ => false end.

Definition is_Message (v : value) : bool :=
  match v with
  | VObj fields =>
      includes [VStr (u "system"); VStr (u "user"); VStr (u "assistant")]
               (own_property (u "role") fields)
      && is_string (own_property (u "content") fields)
  | _ => false
  end.

Definition well_formed_body (body : value) : bool :=
  match body with
  | VObj fields =>
      match own_property (u "messages") fields with
      | VArr items => forallb is_Message items
      | _ => false
      end
      && is_string (own_property (u "userId") fields)
      && match own_property (u "persona") fields with
         | VUndefined | VStr _ => true
         | _ => false
         end
  | _ => false
  end.

Definition malformed (req : Request) : bool :=
  match req_json req with
  | Thrown => true
  | Returned body => negb (well_formed_body body)
  end.

(** Whether a message carries a given role. *)
Definition has_role (role : string) (msg : value) : bool :=
  match prop (u "role") msg with
  | Returned r => same_value_zero (VStr (u role)) r
  | Thrown => false
  end.

(** ** Vocabulary of the statements *)

(** Descending order of the scores. *)
Definition desc (a b : row) : Prop := (similarity b <= similarity a)%Q.

(** The context that [findSimilarContent] returns for an embedding when the
    store answers. *)
Definition retrieved_context (w : World) (embedding : list Q) : jsstring :=
  join [10; 10]
       (List.map contents
          (similarity_query (cosine_distance w) (documents_2 w) embedding)).

(** [updatedMessages] of the regular branch. *)
Definition updated_messages (persona : Persona) (similarContent : jsstring)
           (mapped : list value) (query : jsstring) : list value :=
  [message (VStr (u "system")) (VStr (compose_system_prompt persona similarContent))]
  ++ mapped
  ++ [message (VStr (u "user")) (VStr query)].

(** The two messages that the greeting branch appends. *)
Definition greeting_pair (w : World) (query : jsstring) : list value :=
  [message (VStr (u "user")) (VStr query);
   message (VStr (u "assistant")) (getGreetingResponse w)].

(** The messages handed to [streamText] in the greeting branch. *)
Definition greeting_prompt (w : World) (t : turn) : list value :=
  [message (VStr (u "system")) (VStr (SYSTEM_PROMPTS (turn_persona t)))]
  ++ turn_previous t ++ greeting_pair w (turn_query t).

(** A request that the first lines of the handler cannot read: the body is
    not JSON, [messages] is missing or not an array, the array is empty, or
    its last element has no string [content]. *)
Inductive unreadable (req : Request) : Prop :=
| invalid_json :
    req_json req = Thrown -> unreadable req
| messages_not_array (body : value) :
    req_json req = Returned body ->
    (forall items, prop (u "messages") body <> Returned (VArr items)) ->
    unreadable req
| messages_empty (body : value) :
    req_json req = Returned body ->
    prop (u "messages") body = Returned (VArr []) ->
    unreadable req
| latest_without_text (body : value) (items : list value) (m : value) :
    req_json req = Returned body ->
    prop (u "messages") body = Returned (VArr (items ++ [m])) ->
    (forall s, prop (u "content") m <> Returned (VStr s)) ->
    unreadable req.

(** The readings of three statements about what reaches the memory store
    and what a malformed body causes, as they are worded. *)


(** "The persisted sequence contains no assistant message." *)
Definition persists_no_assistant (w : World) (req : Request) : Prop :=
  forall final uid key,
    In (AddMemories final uid key) (snd (serve w req)) ->
    forall m, In m final -> has_role "assistant" m = false.

(** "A malformed body gets the 500 response and causes no external call." *)
Definition malformed_is_rejected_untouched (w : World) (req : Request) : Prop :=
  malformed req = true ->
  serve w req = (Returned internal_server_error, []).

(** Two readings of what is said of the greeting reply, as worded. *)



(** ** Sample worlds and requests *)

Definition happy_world : World := {|
  embeddings_create := fun _ => Some [[1; 0]%Q];
  cosine_distance := fun _ _ => (1 # 10)%Q;
  documents_2 := [ {| doc_contents := u "AWP is the average wholesale price.";
                      doc_vector := [1; 0]%Q |} ];
  pool_query_fails := fun _ => false;
  streamText := fun _ _ => Some (u "streamed");
  addMemories := fun _ _ _ => true;
  Math_random := S754_finite false 4503599627370496 (-53);
  MEM0_API_KEY := VStr (u "key")
|}.

(** The same providers over a table in which nothing is close to the
    query. *)
Definition quiet_world : World := {|
  embeddings_create := embeddings_create happy_world;
  cosine_distance := fun _ _ => (1 # 2)%Q;
  documents_2 := documents_2 happy_world;
  pool_query_fails := pool_query_fails happy_world;
  streamText := streamText happy_world;
  addMemories := addMemories happy_world;
  Math_random := Math_random happy_world;
  MEM0_API_KEY := MEM0_API_KEY happy_world
|}.

Definition says (role text : string) : value :=
  message (VStr (u role)) (VStr (u text)).

Definition body_of (msgs : list value) (extra : list (jsstring * value)) : value :=
  VObj ([(u "messages", VArr msgs); (u "userId", VStr (u "u1"))] ++ extra).

Definition req_of (msgs : list value) : Request :=
  {| req_json := Returned (body_of msgs []) |}.

Definition hello_request : Request := req_of [says "user" "Hello"].


Definition awp_request : Request := req_of [says "user" "What is AWP?"].

Definition awp_turn : turn :=
  {| turn_userId := VStr (u "u1"); turn_persona := general;
     turn_query := u "What is AWP?"; turn_previous := [] |}.

Definition follow_up_request : Request :=
  req_of [says "user" "What is AWP?";
          says "assistant" "AWP is the average wholesale price.";
          says "user" "And what is WAC?"].

Definition broken_history_request : Request :=
  req_of [VNull; says "user" "What is AWP?"].


Definition empty_request : Request := req_of [].

Definition no_messages_request : Request :=
  {| req_json := Returned (VObj [(u "userId", VStr (u "u1"))]) |}.

(** A table of seven passages whose distance to any query is stored as the
    single coordinate of their vector. *)
Definition stored_distance (a _ : list Q) : Q := hd 0%Q a.

Definition seven_passages : list document :=
  [ {| doc_contents := u "a"; doc_vector := [2 # 10]%Q |};
    {| doc_contents := u "b"; doc_vector := [3 # 10]%Q |};
    {| doc_contents := u "c"; doc_vector := [1 # 10]%Q |};
    {| doc_contents := u "d"; doc_vector := [5 # 100]%Q |};
    {| doc_contents := u "e"; doc_vector := [1 # 10]%Q |};
    {| doc_contents := u "f"; doc_vector := [29 # 100]%Q |};
    {| doc_contents := u "g"; doc_vector := [0]%Q |} ].

(** ** The classifier, read declaratively

    The words of the three patterns, and what may follow a word: the end of
    the query, white space, or, for the second pattern, a question mark. *)
Definition salutations : list jsstring :=
  [u "hi"; u "hello"; u "hey"; u "good morning"; u "good afternoon";
   u "good evening"; u "greetings"].

Definition small_talk : list jsstring :=
  [u "how are you"; u "what's up"; u "wassup"; u "sup"].

Definition foreign_salutations : list jsstring :=
  [u "hola"; u "bonjour"; u "hallo"; u "ciao"].

Definition boundary (question_mark : bool) (rest : jsstring) : Prop :=
  rest = []
  \/ exists c r, rest = c :: r
                 /\ (is_space c = true \/ (question_mark = true /\ c = 63)).

(** Only white space. *)
Definition blank (s : jsstring) : bool := forallb is_space s.

(** ASCII capital letters folded onto small ones; every other code unit is
    kept. *)
Definition ascii_fold (c : N) : N :=
  if (65 <=? c) && (c <=? 90) then c + 32 else c.

(** ** The logging route ([src/app/api/logging/route.ts])

    [storeInteraction] is the logging function wrapped by [traceable]; the
    function itself only prints and returns, and whether the wrapped call
    rejects is left to the tracing library. *)
Inductive log_call : Type :=
| StoreInteraction (userId question response : value).

Definition logged : Response :=
  JsonResponse 200 (u "application/json") (VObj [(u "success", VBool true)]).

Definition failed_to_log : Response :=
  JsonResponse 500 (u "application/json")
               (VObj [(u "error", VStr (u "Failed to log interaction"))]).

(** [POST] of the logging route: the destructuring of the body, the awaited
    [storeInteraction], and the [catch] block. *)
Definition logging_POST (traceable_rejects : value -> value -> value -> bool)
           (req : Request) : Response * list log_call :=
  match req_json req with
  | Thrown => (failed_to_log, [])
  | Returned body =>
      match prop (u "userId") body, prop (u "question") body,
            prop (u "response") body with
      | Returned userId, Returned question, Returned response =>
          (if traceable_rejects userId question response
           then failed_to_log else logged,
           [StoreInteraction userId question response])
      | _, _, _ => (failed_to_log, [])
      end
  end.

(** ** The submit handler of the chat page ([enhancedSubmit])

    What the handler does, in order, for the [input] and [isLoading] of the
    current render; [handleSubmit] is the hook's, and may reject. *)
Inductive ui_effect : Type :=
| PreventDefault
| SetCurrentQuestion (question : jsstring)
| HandleSubmit
| SetError (message : jsstring).

Definition is_empty (s : jsstring) : bool :=
  match s with [] => true | _ :: _ => false end.

Definition enhancedSubmit (input : jsstring) (isLoading : bool)
           (handleSubmit_rejects : bool) : list ui_effect :=
  PreventDefault ::
  if is_empty (trim input) || isLoading then []
  else
    let currentInputValue := trim input in
    SetCurrentQuestion currentInputValue :: HandleSubmit ::
    if handleSubmit_rejects
    then [SetError (u "Failed to process your request")]
    else [].


(** An ASCII capital letter. *)
Definition ascii_capital (c : N) : bool := (65 <=? c) && (c <=? 90).

(** The fifteen words of the classifier. *)
Definition greeting_words : list jsstring :=
  salutations ++ small_talk ++ foreign_salutations.

(** A word that starts and ends with a unit that is no white space, and is
    its own lower-case form. *)
Definition plain_word (w : jsstring) : bool :=
  match w, rev w with
  | x :: _, y :: _ =>
      negb (is_space x) && negb (is_space y) && jsstring_eqb (toLowerCase w) w
  | _, _ => false
  end.

(** A call that does not give the handler what it needs: a rejected promise,
    or an embedding response without data. *)
Definition rejected (w : World) (c : call) : bool :=
  match c with
  | EmbeddingsCreate input =>
      match embeddings_create w input with
      | Some (_ :: _) => false
      | _ => true
      end
  | PoolQuery v => pool_query_fails w v
  | StreamText user_id messages =>
      match streamText w user_id messages with
      | Some _ => false
      | None => true
      end
  | AddMemories messages user_id key => negb (addMemories w messages user_id key)
  end.

(** The providers of [happy_world] with a vector store that fails. *)
Definition store_down_world : World := {|
  embeddings_create := embeddings_create happy_world;
  cosine_distance := cosine_distance happy_world;
  documents_2 := documents_2 happy_world;
  pool_query_fails := fun _ => true;
  streamText := streamText happy_world;
  addMemories := addMemories happy_world;
  Math_random := Math_random happy_world;
  MEM0_API_KEY := MEM0_API_KEY happy_world
|}.

Definition roleplay_request : Request :=
  {| req_json := Returned (body_of [says "user" "Begin"]
                                   [(u "persona", VStr (u "roleplay"))]) |}.

Definition follow_up_turn : turn :=
  {| turn_userId := VStr (u "u1"); turn_persona := general;
     turn_query := u "And what is WAC?";
     turn_previous :=
       [says "user" "What is AWP?";
        says "assistant" "AWP is the average wholesale price."] |}.

(** * Properties *)

(** ** Strings and the classifier on examples *)

Lemma jsstring_eqb_eq (a b : jsstring) : jsstring_eqb a b = true <-> a = b.
Proof.
  revert b. induction a as [|x a IH]; intros [|y b]; simpl; split;
    try congruence; try discriminate.
  - intro H. apply andb_true_iff in H. destruct H as [Hx Ha].
    apply N.eqb_eq in Hx. apply IH in Ha. congruence.
  - intro H. injection H as -> ->. rewrite N.eqb_refl. now apply IH.
Qed.

Example isGreeting_hello : isGreeting (u "Hello") = true.
Proof. reflexivity. Qed.

Example isGreeting_padded : isGreeting (u "  Good Morning team ") = true.
Proof. reflexivity. Qed.

Example isGreeting_sup_question : isGreeting (u "sup?") = true.
Proof. reflexivity. Qed.

Example isGreeting_prefix_only : isGreeting (u "history of AWP") = false.
Proof. reflexivity. Qed.

Example isGreeting_mid_sentence : isGreeting (u "well, hello there") = false.
Proof. reflexivity. Qed.

Example isGreeting_question : isGreeting (u "What is AWP?") = false.
Proof. reflexivity. Qed.

(** ** The similarity query *)

Example similarity_query_seven :
  List.map contents (similarity_query stored_distance seven_passages [])
  = [u "g"; u "d"; u "c"; u "e"; u "a"].
Proof. reflexivity. Qed.

Example similarity_query_threshold :
  similarity_query stored_distance
    [ {| doc_contents := u "b"; doc_vector := [3 # 10]%Q |} ] [] = [].
Proof. reflexivity. Qed.

Example join_two : join [10; 10] [u "g"; u "d"] = u "g" ++ [10; 10] ++ u "d".
Proof. reflexivity. Qed.

Lemma Qle_bool_false (x y : Q) : Qle_bool x y = false -> (y < x)%Q.
Proof.
  intro H. apply Qnot_le_lt. intro Hle.
  apply Qle_bool_iff in Hle. congruence.
Qed.

Lemma above_threshold_spec (r : row) :
  above_threshold r = true <-> (7 # 10 < similarity r)%Q.
Proof.
  unfold above_threshold. split.
  - intro H. apply Qle_bool_false. now destruct (Qle_bool (similarity r) (7 # 10)).
  - intro H. destruct (Qle_bool (similarity r) (7 # 10)) eqn:E; [|reflexivity].
    apply Qle_bool_iff in E. exfalso. exact (Qlt_not_le _ _ H E).
Qed.

Lemma insert_desc_In (r y : row) (l : list row) :
  In y (insert_desc r l) <-> y = r \/ In y l.
Proof.
  induction l as [|x l IH]; simpl.
  - intuition.
  - destruct (Qle_bool (similarity x) (similarity r)); simpl; rewrite ?IH; intuition.
Qed.

Lemma insert_desc_sorted (r : row) (l : list row) :
  StronglySorted desc l -> StronglySorted desc (insert_desc r l).
Proof.
  induction 1 as [|x l Hs IH Hall]; simpl.
  - repeat constructor.
  - destruct (Qle_bool (similarity x) (similarity r)) eqn:E.
    + apply Qle_bool_iff in E.
      constructor; [now constructor|].
      constructor; [exact E|].
      rewrite Forall_forall in Hall |- *. intros y Hy.
      unfold desc in *. apply Qle_trans with (similarity x); [now apply Hall|exact E].
    + apply Qle_bool_false in E.
      constructor; [exact IH|].
      apply Forall_forall. intros y Hy. apply insert_desc_In in Hy.
      destruct Hy as [->|Hy].
      * unfold desc. now apply Qlt_le_weak.
      * rewrite Forall_forall in Hall. now apply Hall.
Qed.

Lemma order_by_similarity_desc_sorted (rows : list row) :
  StronglySorted desc (order_by_similarity_desc rows).
Proof.
  induction rows as [|r rows IH]; simpl.
  - constructor.
  - now apply insert_desc_sorted.
Qed.

Lemma order_by_similarity_desc_In (y : row) (rows : list row) :
  In y (order_by_similarity_desc rows) <-> In y rows.
Proof.
  induction rows as [|r rows IH]; simpl.
  - reflexivity.
  - rewrite insert_desc_In, IH. intuition.
Qed.

Lemma limit_In (n : nat) (rows : list row) (r : row) :
  In r (limit n rows) -> In r rows.
Proof.
  unfold limit. intro H. rewrite <- (firstn_skipn n rows).
  apply in_or_app. now left.
Qed.

Lemma limit_sorted (n : nat) (rows : list row) :
  StronglySorted desc rows -> StronglySorted desc (limit n rows).
Proof.
  unfold limit. intro H. revert n.
  induction H as [|x l Hs IH Hall]; intros [|n]; simpl; try constructor.
  - apply IH.
  - rewrite Forall_forall in Hall |- *. intros y Hy.
    apply Hall. now apply (limit_In n).
Qed.

Lemma similarity_query_In (dist : list Q -> list Q -> Q) (table : list document)
      (v : list Q) (r : row) :
  In r (similarity_query dist table v) ->
  above_threshold r = true /\
  exists d, In d table /\ contents r = doc_contents d
            /\ similarity r = (1 - dist (doc_vector d) v)%Q.
Proof.
  unfold similarity_query. intro H.
  apply limit_In in H. apply -> order_by_similarity_desc_In in H.
  apply filter_In in H. destruct H as [H Hab]. split; [exact Hab|].
  unfold select_from in H. apply in_map_iff in H.
  destruct H as [d [<- Hd]]. exists d. simpl. auto.
Qed.

Lemma insert_desc_perm (r : row) (l : list row) :
  Permutation (insert_desc r l) (r :: l).
Proof.
  induction l as [|x l IH]; simpl.
  - apply Permutation_refl.
  - destruct (Qle_bool (similarity x) (similarity r)).
    + apply Permutation_refl.
    + apply perm_trans with (x :: r :: l).
      * now apply perm_skip.
      * apply perm_swap.
Qed.

Lemma order_by_similarity_desc_perm (rows : list row) :
  Permutation (order_by_similarity_desc rows) rows.
Proof.
  induction rows as [|r rows IH]; simpl.
  - apply Permutation_refl.
  - apply perm_trans with (r :: order_by_similarity_desc rows).
    + apply insert_desc_perm.
    + now apply perm_skip.
Qed.

(** C2. Whatever the embedding, the context of the Similarity Retriever is
    the join, by line breaks, of the contents of at most five passages of
    the table; each of them scores strictly more than 0.7 (the score being
    one minus the cosine distance); they come in descending order of score,
    and they are the head of the descending list of all passages above the
    threshold, the whole of it when fewer than five are returned. The query
    is sent once; when the store fails the call throws. *)
Theorem findSimilarContent_top5 (w : World) (embedding : list Q) (t : trace) :
  exists passages rest : list row,
    (List.length passages <= 5)%nat
    /\ Forall (fun r => (7 # 10 < similarity r)%Q) passages
    /\ StronglySorted desc passages
    /\ Forall (fun r => exists d, In d (documents_2 w)
                                  /\ contents r = doc_contents d
                                  /\ similarity r
                                     = (1 - cosine_distance w (doc_vector d) embedding)%Q)
              passages
    /\ StronglySorted desc (passages ++ rest)
    /\ Permutation (passages ++ rest)
         (filter above_threshold
                 (select_from (cosine_distance w) (documents_2 w) embedding))
    /\ (rest = [] \/ List.length passages = 5%nat)
    /\ findSimilarContent w embedding t =
         (if pool_query_fails w embedding then Thrown
          else Returned (join [10; 10] (List.map contents passages)),
          t ++ [PoolQuery embedding]).
Proof.
  set (sorted := order_by_similarity_desc
                   (filter above_threshold
                      (select_from (cosine_distance w) (documents_2 w) embedding))).
  exists (similarity_query (cosine_distance w) (documents_2 w) embedding).
  exists (skipn 5 sorted).
  assert (Hq : similarity_query (cosine_distance w) (documents_2 w) embedding
               = firstn 5 sorted) by reflexivity.
  repeat split.
  - rewrite Hq. apply firstn_le_length.
  - apply Forall_forall. intros r Hr. apply similarity_query_In in Hr.
    now apply above_threshold_spec.
  - apply limit_sorted. apply order_by_similarity_desc_sorted.
  - apply Forall_forall. intros r Hr. now apply similarity_query_In in Hr.
  - rewrite Hq, firstn_skipn. apply order_by_similarity_desc_sorted.
  - rewrite Hq, firstn_skipn. apply order_by_similarity_desc_perm.
  - rewrite Hq, length_firstn.
    destruct (Nat.le_gt_cases 5 (List.length sorted)) as [Hle|Hgt].
    + right. now apply Nat.min_l.
    + left. apply skipn_all2. lia.
  - unfold findSimilarContent, bind, emit, throw, ret.
    now destruct (pool_query_fails w embedding).
Qed.

(** ** Personas and prompts *)

Lemma select_persona_roleplay (v : value) :
  select_persona v = roleplay -> v = VStr (u "roleplay").
Proof.
  unfold select_persona, as_Persona.
  destruct (isValidPersona v); [|discriminate].
  destruct v; cbn [same_value_zero]; try discriminate.
  destruct (jsstring_eqb (u "roleplay") s) eqn:E; [|discriminate].
  apply jsstring_eqb_eq in E. now subst.
Qed.


(** ** The handler, step by step *)

Ltac run_monad :=
  cbv beta iota zeta delta
      [serve POST greeting_branch regular_branch getQueryEmbedding
       findSimilarContent call_streamText call_addMemories
       bind ret throw lift emit try_catch app fst snd].

(** Case analysis on membership in an explicit trace: what is left are the
    calls built with the same constructor as the one looked for. *)
Ltac pick_call H :=
  cbn [snd In] in H;
  repeat (destruct H as [H|H]; [try discriminate H|]);
  try contradiction.

Lemma serve_undecodable (w : World) (req : Request) :
  decode req = None ->
  serve w req = (Returned internal_server_error, []).
Proof.
  unfold decode. run_monad.
  destruct (req_json req) as [body|]; [|reflexivity].
  destruct (prop (u "messages") body) as [messages|] eqn:Hm.
  - assert (Hu : exists x, prop (u "userId") body = Returned x)
      by (destruct body; simpl in *; try discriminate; eauto).
    assert (Hp : exists x, prop (u "persona") body = Returned x)
      by (destruct body; simpl in *; try discriminate; eauto).
    destruct Hu as [userId ->]. destruct Hp as [rawPersona ->].
    destruct (latest_and_previous messages) as [[userQuery previous]|];
      [|reflexivity].
    destruct userQuery; try reflexivity. discriminate.
  - reflexivity.
Qed.

Lemma serve_decoded (w : World) (req : Request) (t : turn) :
  decode req = Some t ->
  serve w req =
    try_catch
      (if isGreeting (turn_query t)
       then greeting_branch w (turn_persona t) (turn_userId t)
                            (turn_query t) (turn_previous t)
       else regular_branch w (turn_persona t) (turn_userId t)
                           (turn_query t) (turn_previous t))
      (ret internal_server_error) [].
Proof.
  unfold decode. cbv beta iota zeta delta [serve POST bind lift try_catch fst snd].
  destruct (req_json req) as [body|]; [|discriminate].
  destruct (prop (u "messages") body) as [messages|]; [|discriminate].
  destruct (prop (u "userId") body) as [userId|]; [|discriminate].
  destruct (prop (u "persona") body) as [rawPersona|]; [|discriminate].
  destruct (latest_and_previous messages) as [[userQuery previous]|] eqn:Hl;
    [|discriminate].
  destruct userQuery; try discriminate.
  intro H. injection H as <-. reflexivity.
Qed.

Lemma greeting_run (w : World) (req : Request) (t : turn) :
  decode req = Some t ->
  isGreeting (turn_query t) = true ->
  serve w req =
    let prompt := greeting_prompt w t in
    let memory := turn_previous t ++ greeting_pair w (turn_query t) in
    let uid := turn_userId t in
    match streamText w uid prompt with
    | None => (Returned internal_server_error, [StreamText uid prompt])
    | Some stream =>
        (if addMemories w memory uid (MEM0_API_KEY w)
         then Returned (DataStreamResponse stream)
         else Returned internal_server_error,
         [StreamText uid prompt; AddMemories memory uid (MEM0_API_KEY w)])
    end.
Proof.
  intros Hd Hg. rewrite (serve_decoded w _ Hd), Hg.
  unfold greeting_prompt, greeting_pair. run_monad.
  destruct (streamText w _ _); [|reflexivity].
  destruct (addMemories w _ _ _); reflexivity.
Qed.

Lemma regular_run (w : World) (req : Request) (t : turn) :
  decode req = Some t ->
  isGreeting (turn_query t) = false ->
  serve w req =
    let q := turn_query t in
    let uid := turn_userId t in
    match embeddings_create w q with
    | Some (e :: _) =>
        if pool_query_fails w e
        then (Returned internal_server_error, [EmbeddingsCreate q; PoolQuery e])
        else
          match map_outcome role_and_content (turn_previous t) with
          | Thrown =>
              (Returned internal_server_error, [EmbeddingsCreate q; PoolQuery e])
          | Returned mapped =>
              let final :=
                updated_messages (turn_persona t) (retrieved_context w e) mapped q in
              match streamText w uid final with
              | None =>
                  (Returned internal_server_error,
                   [EmbeddingsCreate q; PoolQuery e; StreamText uid final])
              | Some stream =>
                  (if addMemories w final uid (MEM0_API_KEY w)
                   then Returned (DataStreamResponse stream)
                   else Returned internal_server_error,
                   [EmbeddingsCreate q; PoolQuery e; StreamText uid final;
                    AddMemories final uid (MEM0_API_KEY w)])
              end
          end
    | _ => (Returned internal_server_error, [EmbeddingsCreate q])
    end.
Proof.
  intros Hd Hg. rewrite (serve_decoded w _ Hd), Hg.
  unfold updated_messages, retrieved_context. run_monad.
  destruct (embeddings_create w (turn_query t)) as [[|e data]|]; try reflexivity.
  destruct (pool_query_fails w e); [reflexivity|].
  destruct (map_outcome role_and_content (turn_previous t)) as [mapped|];
    [|reflexivity].
  destruct (streamText w _ _); [|reflexivity].
  destruct (addMemories w _ _ _); reflexivity.
Qed.

Lemma index_last {A : Type} (l : list A) (x : A) :
  index (l ++ [x]) (Z.of_nat (List.length (l ++ [x])) - 1) = Some x.
Proof.
  unfold index. rewrite length_app. simpl.
  replace (Z.of_nat (List.length l + 1) - 1)%Z with (Z.of_nat (List.length l)) by lia.
  destruct (Z.of_nat (List.length l) <? 0)%Z eqn:E; [apply Z.ltb_lt in E; lia|].
  rewrite Nat2Z.id, nth_error_app2 by lia.
  now rewrite Nat.sub_diag.
Qed.

Lemma latest_of_empty : latest_and_previous (VArr []) = Thrown.
Proof. reflexivity. Qed.

Lemma latest_of_snoc (items : list value) (m : value) :
  latest_and_previous (VArr (items ++ [m])) =
    match prop (u "content") m with
    | Thrown => Thrown
    | Returned userQuery => Returned (userQuery, items)
    end.
Proof.
  unfold latest_and_previous. rewrite index_last, removelast_last. reflexivity.
Qed.

Lemma unreadable_decode (req : Request) : unreadable req -> decode req = None.
Proof.
  unfold decode. intros [H|body H Hm|body H Hm|body items m H Hm Hc]; rewrite H.
  - reflexivity.
  - destruct (prop (u "messages") body) as [messages|]; [|reflexivity].
    destruct (prop (u "userId") body); [|reflexivity].
    destruct (prop (u "persona") body); [|reflexivity].
    destruct messages; try reflexivity. now elim (Hm items).
  - rewrite Hm.
    destruct (prop (u "userId") body); [|reflexivity].
    destruct (prop (u "persona") body); reflexivity.
  - rewrite Hm.
    destruct (prop (u "userId") body); [|reflexivity].
    destruct (prop (u "persona") body); [|reflexivity].
    rewrite latest_of_snoc.
    destruct (prop (u "content") m) as [c|]; [|reflexivity].
    destruct c; try reflexivity. now elim (Hc s).
Qed.

(** ** Claims about the handler *)

(** C1. When the latest message of a request is a greeting ([isGreeting]
    returns true on its content), serving the request never calls the
    Embedding Client nor the Similarity Retriever: neither
    [openai.embeddings.create] nor [pool.query] appears in the trace. *)
Theorem greeting_skips_retrieval (w : World) (req : Request) (t : turn) :
  decode req = Some t ->
  isGreeting (turn_query t) = true ->
  (forall input, ~ In (EmbeddingsCreate input) (snd (serve w req)))
  /\ (forall v, ~ In (PoolQuery v) (snd (serve w req)))
  /\ attempts Embedding (snd (serve w req)) = 0%nat
  /\ attempts VectorStore (snd (serve w req)) = 0%nat.
Proof.
  intros Hd Hg. rewrite (greeting_run w _ Hd Hg). cbv zeta.
  destruct (streamText w _ _); simpl; repeat split;
    try (intros x [H|[H|[]]]; discriminate);
    try (intros x [H|[]]; discriminate).
Qed.

(** C8. Serving one request attempts each kind of external call (embedding,
    vector-store query, completion, memory write) at most once: nothing is
    retried. *)
Theorem no_retries (w : World) (req : Request) (k : kind) :
  (attempts k (snd (serve w req)) <= 1)%nat.
Proof.
  destruct (decode req) as [t|] eqn:Hd.
  - destruct (isGreeting (turn_query t)) eqn:Hg.
    + rewrite (greeting_run w _ Hd Hg). cbv zeta.
      destruct (streamText w _ _); destruct k; unfold attempts; simpl; lia.
    + rewrite (regular_run w _ Hd Hg). cbv zeta.
      destruct (embeddings_create w (turn_query t)) as [[|e data]|];
        try (destruct k; unfold attempts; simpl; lia).
      destruct (pool_query_fails w e); [destruct k; unfold attempts; simpl; lia|].
      destruct (map_outcome role_and_content (turn_previous t));
        [|destruct k; unfold attempts; simpl; lia].
      destruct (streamText w _ _); destruct k; unfold attempts; simpl; lia.
  - rewrite (serve_undecodable w _ Hd). destruct k; unfold attempts; simpl; lia.
Qed.

(** C10. When the body parses as JSON and [messages] is an empty list,
    reading the latest query throws, and the endpoint answers with the 500
    error response without any external call. *)
Theorem empty_messages_rejected (w : World) (req : Request) (body : value) :
  req_json req = Returned body ->
  prop (u "messages") body = Returned (VArr []) ->
  latest_and_previous (VArr []) = Thrown
  /\ serve w req = (Returned internal_server_error, [])
  /\ internal_server_error
     = JsonResponse 500 (u "application/json")
                    (VObj [(u "error", VStr (u "Internal Server Error"))]).
Proof.
  intros H Hm. split; [reflexivity|]. split; [|reflexivity].
  apply serve_undecodable. apply unreadable_decode.
  now apply messages_empty with body.
Qed.

(** C7, as amended. A request whose body is not valid JSON, or has no array
    under [messages], or an empty one, or whose last message has no string
    [content], is answered with the 500 JSON error response, and no call
    goes to the embedding provider, the vector store, the completion
    provider or the memory store. *)
Theorem unreadable_request_rejected (w : World) (req : Request) :
  unreadable req ->
  serve w req
  = (Returned (JsonResponse 500 (u "application/json")
                 (VObj [(u "error", VStr (u "Internal Server Error"))])), []).
Proof.
  intro H. apply unreadable_decode in H.
  now rewrite (serve_undecodable w _ H).
Qed.

Lemma decode_persona (req : Request) (body field : value) (t : turn) :
  req_json req = Returned body ->
  prop (u "persona") body = Returned field ->
  decode req = Some t ->
  turn_persona t = select_persona (with_default field (VStr (u "general"))).
Proof.
  unfold decode. intros -> ->.
  destruct (prop (u "messages") body) as [messages|]; [|discriminate].
  destruct (prop (u "userId") body) as [userId|]; [|discriminate].
  destruct (latest_and_previous messages) as [[userQuery previous]|];
    [|discriminate].
  destruct userQuery; try discriminate.
  intro H. injection H as <-. reflexivity.
Qed.


(** C7, the counterexample. A body whose history holds [null] is malformed,
    and the handler reaches the embedding provider and the vector store
    before [previousMessages.map] throws. *)
Lemma malformed_history_reaches_providers :
  malformed broken_history_request = true
  /\ serve happy_world broken_history_request
     = (Returned internal_server_error,
        [EmbeddingsCreate (u "What is AWP?"); PoolQuery [1; 0]%Q])
  /\ ~ malformed_is_rejected_untouched happy_world broken_history_request.
Proof.
  split; [reflexivity|]. split; [reflexivity|].
  intro H. specialize (H eq_refl). discriminate H.
Qed.

(** C4. With an empty retrieved context the system prompt is the persona
    template followed by the 'Documentation Context: ' label and nothing
    after it; and when the retriever returns the empty string while the
    providers answer, the request is served: the prompt is sent to the
    completion provider and the stream is returned. *)
Theorem empty_context_is_served (w : World) (req : Request) (t : turn)
        (e : list Q) (data : list (list Q)) (history : list value)
        (stream : jsstring) :
  let prompt := SYSTEM_PROMPTS (turn_persona t) ++ [10; 10]
                ++ u "Documentation Context: " in
  let sent := message (VStr (u "system")) (VStr prompt)
              :: history ++ [message (VStr (u "user")) (VStr (turn_query t))] in
  decode req = Some t ->
  isGreeting (turn_query t) = false ->
  embeddings_create w (turn_query t) = Some (e :: data) ->
  pool_query_fails w e = false ->
  retrieved_context w e = [] ->
  map_outcome role_and_content (turn_previous t) = Returned history ->
  streamText w (turn_userId t) sent = Some stream ->
  addMemories w sent (turn_userId t) (MEM0_API_KEY w) = true ->
  compose_system_prompt (turn_persona t) [] = prompt
  /\ findSimilarContent w e [] = (Returned [], [PoolQuery e])
  /\ serve w req
     = (Returned (DataStreamResponse stream),
        [EmbeddingsCreate (turn_query t); PoolQuery e;
         StreamText (turn_userId t) sent;
         AddMemories sent (turn_userId t) (MEM0_API_KEY w)]).
Proof.
  intros prompt sent Hd Hg He Hq Hc Hm Hs Ha.
  assert (Hp : compose_system_prompt (turn_persona t) [] = prompt).
  { unfold compose_system_prompt, prompt. now rewrite app_nil_r. }
  assert (Hsent : updated_messages (turn_persona t) [] history (turn_query t) = sent).
  { unfold updated_messages, sent. now rewrite Hp. }
  split; [exact Hp|]. split.
  - unfold findSimilarContent, bind, emit, ret. rewrite Hq.
    fold (retrieved_context w e). now rewrite Hc.
  - rewrite (regular_run w _ Hd Hg). cbv zeta.
    rewrite He, Hq, Hm, Hc, Hsent, Hs, Ha. reflexivity.
Qed.

(** ** The greeting reply *)

(** *** Rounding a product of doubles

    [SFmul] shifts the exact product of the mantissas to 53 bits and rounds
    it to nearest, ties to even. What follows bounds the result when one
    factor is a double of [[0, 1)] and the other is 5. *)

Section Doubles.
Local Open Scope Z_scope.
















End Doubles.




(** ** What the regular branch persists *)


Lemma has_role_message (role : string) (r content : value) :
  has_role role (message r content) = same_value_zero (VStr (u role)) r.
Proof. reflexivity. Qed.

Lemma decode_messages (req : Request) (body : value) (items : list value) (t : turn) :
  req_json req = Returned body ->
  prop (u "messages") body = Returned (VArr items) ->
  decode req = Some t ->
  exists latest,
    items = turn_previous t ++ [latest]
    /\ prop (u "content") latest = Returned (VStr (turn_query t)).
Proof.
  unfold decode. intros -> ->.
  destruct (prop (u "userId") body) as [userId|]; [|discriminate].
  destruct (prop (u "persona") body) as [rawPersona|]; [|discriminate].
  destruct items as [|m items] using rev_ind; [discriminate|].
  rewrite latest_of_snoc.
  destruct (prop (u "content") m) as [c|] eqn:Hc; [|discriminate].
  destruct c; try discriminate.
  intro H. injection H as <-. simpl. eauto.
Qed.

(** What the regular branch hands to [addMemories], whenever it gets
    there. *)
Lemma regular_memory (w : World) (req : Request) (t : turn) :
  decode req = Some t ->
  isGreeting (turn_query t) = false ->
  forall final uid key,
    In (AddMemories final uid key) (snd (serve w req)) ->
    exists e history,
      In (PoolQuery e) (snd (serve w req))
      /\ map_outcome role_and_content (turn_previous t) = Returned history
      /\ final = updated_messages (turn_persona t) (retrieved_context w e)
                                  history (turn_query t).
Proof.
  intros Hd Hg final uid key. rewrite (regular_run w _ Hd Hg). cbv zeta.
  intro Hin.
  destruct (embeddings_create w (turn_query t)) as [[|e data]|];
    try (pick_call Hin; fail).
  destruct (pool_query_fails w e); [pick_call Hin|].
  destruct (map_outcome role_and_content (turn_previous t)) as [history|];
    [|pick_call Hin].
  exists e, history.
  destruct (streamText w _ _); pick_call Hin.
  injection Hin as <- _ _. cbn [snd In]. intuition.
Qed.




(** C9, the counterexample. When the history of the request holds an earlier
    answer of the assistant, that answer is part of what is handed to
    [addMemories]: the persisted sequence does contain an assistant
    message. *)
Lemma history_answer_is_persisted :
  ~ persists_no_assistant happy_world follow_up_request
  /\ exists final,
       In (AddMemories final (VStr (u "u1")) (VStr (u "key")))
          (snd (serve happy_world follow_up_request))
       /\ In (says "assistant" "AWP is the average wholesale price.") final.
Proof.
  pose (final := updated_messages general
                   (retrieved_context happy_world [1; 0]%Q)
                   [says "user" "What is AWP?";
                    says "assistant" "AWP is the average wholesale price."]
                   (u "And what is WAC?")).
  assert (Hin : In (AddMemories final (VStr (u "u1")) (VStr (u "key")))
                   (snd (serve happy_world follow_up_request))).
  { right. right. right. left. reflexivity. }
  assert (Ha : In (says "assistant" "AWP is the average wholesale price.") final).
  { right. right. left. reflexivity. }
  split.
  - intro H. specialize (H _ _ _ Hin _ Ha). discriminate H.
  - exists final. split; assumption.
Qed.

(** C9, as amended. On the regular branch, whatever is handed to
    [addMemories] begins with a system message whose content is the persona
    template, the 'Documentation Context: ' label and the context retrieved
    for the embedding that was queried; the prior history follows, each
    message reduced to its role and content, and the latest user turn comes
    last. No assistant message is added for the current turn: an assistant
    message in the sequence is one of the prior history. *)
Theorem regular_turn_memory_layout (w : World) (req : Request) (t : turn) :
  decode req = Some t ->
  isGreeting (turn_query t) = false ->
  forall final uid key,
    In (AddMemories final uid key) (snd (serve w req)) ->
    exists e history,
      In (PoolQuery e) (snd (serve w req))
      /\ map_outcome role_and_content (turn_previous t) = Returned history
      /\ final
         = message (VStr (u "system"))
                   (VStr (SYSTEM_PROMPTS (turn_persona t) ++ [10; 10]
                          ++ u "Documentation Context: "
                          ++ retrieved_context w e))
           :: history ++ [message (VStr (u "user")) (VStr (turn_query t))]
      /\ last final VUndefined = message (VStr (u "user")) (VStr (turn_query t))
      /\ (forall m, In m final -> has_role "assistant" m = true -> In m history).
Proof.
  intros Hd Hg final uid key Hin.
  destruct (regular_memory w _ Hd Hg _ _ _ Hin) as [e [history [Hq [Hh ->]]]].
  exists e, history.
  split; [exact Hq|]. split; [exact Hh|].
  unfold updated_messages, compose_system_prompt. cbn [app].
  split; [reflexivity|]. split.
  - rewrite app_comm_cons. apply last_last.
  - intros m [<-|Hm] Hrole.
    + rewrite has_role_message in Hrole. discriminate Hrole.
    + apply in_app_or in Hm. destruct Hm as [Hm|[<-|[]]]; [exact Hm|].
      rewrite has_role_message in Hrole. discriminate Hrole.
Qed.

(** ** The theorems at concrete requests *)

Lemma greeting_skips_retrieval_hello :
  isGreeting (u "Hello") = true
  /\ attempts Embedding (snd (serve happy_world hello_request)) = 0%nat
  /\ attempts VectorStore (snd (serve happy_world hello_request)) = 0%nat.
Proof.
  split; [reflexivity|].
  destruct (@greeting_skips_retrieval happy_world hello_request
              {| turn_userId := VStr (u "u1"); turn_persona := general;
                 turn_query := u "Hello"; turn_previous := [] |}
              eq_refl eq_refl)
    as [_ [_ [He Hv]]].
  split; assumption.
Defined.


Lemma empty_context_is_served_quiet :
  retrieved_context quiet_world [1; 0]%Q = []
  /\ compose_system_prompt general []
     = general_template ++ [10; 10] ++ u "Documentation Context: "
  /\ fst (serve quiet_world awp_request) = Returned (DataStreamResponse (u "streamed")).
Proof.
  split; [reflexivity|].
  destruct (@empty_context_is_served quiet_world awp_request awp_turn
              [1; 0]%Q [] [] (u "streamed")
              eq_refl eq_refl eq_refl eq_refl eq_refl eq_refl eq_refl eq_refl)
    as [Hp [_ Hs]].
  split; [exact Hp|]. now rewrite Hs.
Defined.


Lemma unreadable_request_rejected_no_messages :
  unreadable no_messages_request
  /\ serve happy_world no_messages_request
     = (Returned (JsonResponse 500 (u "application/json")
                    (VObj [(u "error", VStr (u "Internal Server Error"))])), []).
Proof.
  assert (H : unreadable no_messages_request).
  { apply messages_not_array with (VObj [(u "userId", VStr (u "u1"))]).
    - reflexivity.
    - intros items E. discriminate E. }
  split; [exact H|].
  exact (@unreadable_request_rejected happy_world no_messages_request H).
Defined.

Lemma empty_messages_rejected_sample :
  latest_and_previous (VArr []) = Thrown
  /\ serve happy_world empty_request = (Returned internal_server_error, [])
  /\ internal_server_error
     = JsonResponse 500 (u "application/json")
                    (VObj [(u "error", VStr (u "Internal Server Error"))]).
Proof.
  exact (@empty_messages_rejected happy_world empty_request (body_of [] [])
           eq_refl eq_refl).
Defined.


Lemma regular_turn_memory_layout_follow_up :
  exists final history,
    In (AddMemories final (VStr (u "u1")) (VStr (u "key")))
       (snd (serve happy_world follow_up_request))
    /\ history = [says "user" "What is AWP?";
                  says "assistant" "AWP is the average wholesale price."]
    /\ final
       = message (VStr (u "system"))
                 (VStr (general_template ++ [10; 10]
                        ++ u "Documentation Context: "
                        ++ u "AWP is the average wholesale price."))
         :: history ++ [says "user" "And what is WAC?"]
    /\ last final VUndefined = says "user" "And what is WAC?".
Proof.
  pose (final := updated_messages general
                   (retrieved_context happy_world [1; 0]%Q)
                   [says "user" "What is AWP?";
                    says "assistant" "AWP is the average wholesale price."]
                   (u "And what is WAC?")).
  assert (Hin : In (AddMemories final (VStr (u "u1")) (VStr (u "key")))
                   (snd (serve happy_world follow_up_request))).
  { right. right. right. left. reflexivity. }
  destruct (@regular_turn_memory_layout happy_world follow_up_request
              {| turn_userId := VStr (u "u1"); turn_persona := general;
                 turn_query := u "And what is WAC?";
                 turn_previous :=
                   [says "user" "What is AWP?";
                    says "assistant" "AWP is the average wholesale price."] |}
              eq_refl eq_refl final _ _ Hin)
    as [e [history [_ [Hh [_ [Hl _]]]]]].
  exists final, history.
  split; [exact Hin|].
  vm_compute in Hh. injection Hh as <-.
  split; [reflexivity|]. split; [reflexivity | exact Hl].
Defined.

(** * Further properties of the route *)

(** ** Trimming *)

Lemma trim_start_blank (s : jsstring) : blank s = true -> trim_start s = [].
Proof.
  induction s as [|c s IH]; simpl; [reflexivity|].
  intro H. apply andb_true_iff in H. destruct H as [Hc Hs].
  rewrite Hc. now apply IH.
Qed.

Lemma trim_start_app_blank (pre s : jsstring) :
  blank pre = true -> trim_start (pre ++ s) = trim_start s.
Proof.
  induction pre as [|c pre IH]; simpl; [reflexivity|].
  intro H. apply andb_true_iff in H. destruct H as [Hc Hs].
  rewrite Hc. now apply IH.
Qed.

Lemma trim_start_head (s : jsstring) (c : N) (r : jsstring) :
  trim_start s = c :: r -> is_space c = false.
Proof.
  induction s as [|x s IH]; simpl; [discriminate|].
  destruct (is_space x) eqn:E; [exact IH|].
  intro H. injection H as <- _. exact E.
Qed.

Lemma trim_start_fixed (c : N) (s : jsstring) :
  is_space c = false -> trim_start (c :: s) = c :: s.
Proof. intro H. simpl. now rewrite H. Qed.

Lemma trim_start_app (s t : jsstring) :
  trim_start s <> [] -> trim_start (s ++ t) = trim_start s ++ t.
Proof.
  induction s as [|c s IH]; simpl; [congruence|].
  destruct (is_space c); [exact IH|reflexivity].
Qed.

Lemma trim_start_nil_blank (s : jsstring) : trim_start s = [] -> blank s = true.
Proof.
  induction s as [|c s IH]; simpl; [reflexivity|].
  destruct (is_space c); [exact IH|discriminate].
Qed.

Lemma blank_rev (s : jsstring) : blank (rev s) = blank s.
Proof.
  unfold blank. induction s as [|c s IH]; simpl; [reflexivity|].
  rewrite forallb_app, IH. simpl. rewrite andb_true_r. apply andb_comm.
Qed.

Lemma blank_app (s t : jsstring) : blank (s ++ t) = blank s && blank t.
Proof. apply forallb_app. Qed.

(** Removing white space at the end. *)
Lemma trim_end_app_blank (s post : jsstring) :
  blank post = true ->
  rev (trim_start (rev (s ++ post))) = rev (trim_start (rev s)).
Proof.
  intro H. rewrite rev_app_distr, trim_start_app_blank; [reflexivity|].
  now rewrite blank_rev.
Qed.

Lemma trim_pad (pre q post : jsstring) :
  blank pre = true -> blank post = true ->
  trim (pre ++ q ++ post) = trim q.
Proof.
  intros Hpre Hpost. unfold trim. rewrite trim_start_app_blank by exact Hpre.
  destruct (trim_start q) as [|c r] eqn:E.
  - apply trim_start_nil_blank in E.
    rewrite (@trim_start_blank (q ++ post)); [reflexivity|].
    now rewrite blank_app, E, Hpost.
  - rewrite trim_start_app, E by congruence.
    now apply trim_end_app_blank.
Qed.

Lemma trim_blank (s : jsstring) : blank s = true -> trim s = [].
Proof. intro H. unfold trim. now rewrite (@trim_start_blank s) by exact H. Qed.

Lemma trim_nil_blank (s : jsstring) : trim s = [] -> blank s = true.
Proof.
  unfold trim. intro H.
  destruct (trim_start s) as [|c r] eqn:E.
  - now apply trim_start_nil_blank.
  - exfalso. pose proof E as Hc. apply trim_start_head in Hc.
    assert (Hr : trim_start (rev (c :: r)) = []).
    { apply (f_equal (@rev N)) in H. now rewrite rev_involutive in H. }
    apply trim_start_nil_blank in Hr. rewrite blank_rev in Hr.
    simpl in Hr. now rewrite Hc in Hr.
Qed.

Lemma trim_start_snoc (a : jsstring) (x : N) :
  is_space x = false -> trim_start (a ++ [x]) = trim_start a ++ [x].
Proof.
  intro Hx. induction a as [|y a IH]; simpl.
  - now rewrite Hx.
  - destruct (is_space y); [exact IH|reflexivity].
Qed.

(** Trimming the end of a string that starts with a unit that is no white
    space keeps that unit. *)
Lemma trim_end_cons (x : N) (t : jsstring) :
  is_space x = false ->
  rev (trim_start (rev (x :: t))) = x :: rev (trim_start (rev t)).
Proof.
  intro Hx. simpl rev at 2. rewrite trim_start_snoc by exact Hx.
  rewrite rev_app_distr. reflexivity.
Qed.

Lemma trim_head (s : jsstring) (c : N) (r : jsstring) :
  trim s = c :: r -> is_space c = false.
Proof.
  unfold trim. intro H.
  destruct (trim_start s) as [|x t] eqn:E; [discriminate|].
  pose proof E as Hx. apply trim_start_head in Hx.
  rewrite trim_end_cons in H by exact Hx.
  injection H as <- _. exact Hx.
Qed.

Lemma trim_last (s r : jsstring) (c : N) :
  trim s = r ++ [c] -> is_space c = false.
Proof.
  unfold trim. intro H.
  apply (f_equal (@rev N)) in H. rewrite rev_involutive, rev_app_distr in H.
  simpl in H. now apply trim_start_head in H.
Qed.

(** ** Code units *)

Ltac split_units :=
  repeat match goal with
         | |- context [N.leb ?a ?b] => destruct (N.leb_spec a b)
         | |- context [N.eqb ?a ?b] => destruct (N.eqb_spec a b)
         end;
  simpl; try discriminate; try reflexivity; try lia.

Lemma canonicalize_eq (a c : N) :
  ascii_capital a = false -> ascii_capital c = false ->
  (canonicalize a =? canonicalize c) = true -> a = c.
Proof.
  unfold ascii_capital, canonicalize. intros Ha Hc H.
  apply N.eqb_eq in H. revert Ha Hc H.
  split_units; intros; try discriminate; lia.
Qed.

Lemma lower_unit_no_capital (c : N) :
  Forall (fun x => ascii_capital x = false) (lower_unit c).
Proof.
  unfold lower_unit, ascii_capital.
  split_units; repeat constructor; split_units.
Qed.

Lemma toLowerCase_no_capital (s : jsstring) :
  Forall (fun x => ascii_capital x = false) (toLowerCase s).
Proof.
  unfold toLowerCase. induction s as [|c s IH]; simpl.
  - constructor.
  - apply Forall_app. split; [apply lower_unit_no_capital|exact IH].
Qed.

Lemma strip_prefix_ci_refl (w rest : jsstring) :
  strip_prefix_ci w (w ++ rest) = Some rest.
Proof.
  induction w as [|a w IH]; simpl; [reflexivity|].
  now rewrite N.eqb_refl.
Qed.

(** On text without capitals, matching a word without capitals under the
    [i] flag is plain prefix matching. *)
Lemma strip_prefix_ci_spec (w s rest : jsstring) :
  Forall (fun x => ascii_capital x = false) w ->
  Forall (fun x => ascii_capital x = false) s ->
  strip_prefix_ci w s = Some rest <-> s = w ++ rest.
Proof.
  intros Hw Hs. split.
  - revert s Hs. induction Hw as [|a w Ha Hw IH]; intros s Hs; simpl.
    + intro H. now injection H as ->.
    + destruct s as [|c s]; [discriminate|].
      inversion Hs as [|? ? Hc Hs']; subst.
      destruct (canonicalize a =? canonicalize c) eqn:E; [|discriminate].
      intro H. apply canonicalize_eq in E; try assumption. subst c.
      f_equal. now apply IH.
  - intros ->. apply strip_prefix_ci_refl.
Qed.

(** ** The patterns *)

(** A pattern made of a choice of words and of what may follow matches
    exactly when one of the words starts the text and what may follow
    matches the rest. *)
Lemma rmatch_words (ws : list jsstring) (follow : regex) (s : jsstring) :
  test (Seq (Alt (List.map Chars ws)) follow) s
  = existsb (fun w => match strip_prefix_ci w s with
                      | Some rest => test follow rest
                      | None => false
                      end) ws.
Proof.
  unfold test. simpl. induction ws as [|w ws IH]; simpl; [reflexivity|].
  now rewrite IH.
Qed.

Lemma follow_space_or_end (rest : jsstring) :
  test (Alt [WhiteSpace; EndOfInput]) rest = true <-> boundary false rest.
Proof.
  unfold test, boundary. destruct rest as [|c r]; simpl.
  - intuition.
  - rewrite andb_true_r, orb_false_r. split.
    + intro H. right. exists c, r. auto.
    + intros [H|[c' [r' [H [Hs|[Hq _]]]]]]; try discriminate.
      now injection H as -> ->.
Qed.

Lemma canonicalize_question (c : N) :
  (canonicalize 63 =? canonicalize c) = (c =? 63).
Proof.
  change (canonicalize 63) with 63. unfold canonicalize.
  destruct (N.leb_spec 97 c); destruct (N.leb_spec c 122); cbn [andb];
    repeat match goal with
           | |- context [N.eqb ?a ?b] => destruct (N.eqb_spec a b)
           end; try reflexivity; lia.
Qed.

Lemma follow_question_space_or_end (rest : jsstring) :
  test (Alt [Chars (u "?"); WhiteSpace; EndOfInput]) rest = true
  <-> boundary true rest.
Proof.
  unfold test, boundary. destruct rest as [|c r].
  - simpl. intuition.
  - change (u "?") with [63]. cbn [rmatch strip_prefix_ci].
    rewrite canonicalize_question, andb_true_r, !orb_false_r.
    destruct (N.eqb_spec c 63) as [->|Hc]; cbn [orb].
    + split; [|reflexivity]. intros _. right. exists 63, r. auto.
    + split.
      * intro H. right. exists c, r. auto.
      * intros [H|[c' [r' [H [Hs|[_ Hq]]]]]]; try discriminate;
          injection H as -> ->; [exact Hs|contradiction].
Qed.

Lemma words_match (ws : list jsstring) (follow : regex) (b : bool) (s : jsstring) :
  (forall rest, test follow rest = true <-> boundary b rest) ->
  forallb (forallb (fun x => negb (ascii_capital x))) ws = true ->
  Forall (fun x => ascii_capital x = false) s ->
  test (Seq (Alt (List.map Chars ws)) follow) s = true
  <-> exists w rest, In w ws /\ s = w ++ rest /\ boundary b rest.
Proof.
  intros Hf Hws Hs. rewrite rmatch_words, existsb_exists.
  assert (Hw : forall w, In w ws -> Forall (fun x => ascii_capital x = false) w).
  { intros w Hin. rewrite forallb_forall in Hws. specialize (Hws w Hin).
    rewrite forallb_forall in Hws. apply Forall_forall. intros x Hx.
    apply Hws in Hx. now destruct (ascii_capital x). }
  split.
  - intros [w [Hin H]].
    destruct (strip_prefix_ci w s) as [rest|] eqn:E; [|discriminate].
    exists w, rest. split; [exact Hin|]. split.
    + apply strip_prefix_ci_spec; auto.
    + now apply Hf.
  - intros [w [rest [Hin [-> Hb]]]]. exists w. split; [exact Hin|].
    rewrite strip_prefix_ci_refl. now apply Hf.
Qed.

(** ** The greeting classifier *)

(** X1. [isGreeting] holds exactly when the query, trimmed and lower-cased,
    starts with one of the fifteen greeting words, and the word is followed
    by the end of the query or by white space, or also by a question mark
    for the four phrases of the second pattern. *)
Theorem isGreeting_spec (query : jsstring) :
  isGreeting query = true
  <-> exists w rest,
        toLowerCase (trim query) = w ++ rest
        /\ ((In w (salutations ++ foreign_salutations) /\ boundary false rest)
            \/ (In w small_talk /\ boundary true rest)).
Proof.
  pose proof (toLowerCase_no_capital (trim query)) as Hs.
  unfold isGreeting.
  change greetingPatterns with
    [ Seq (Alt (List.map Chars salutations)) (Alt [WhiteSpace; EndOfInput]);
      Seq (Alt (List.map Chars small_talk))
          (Alt [Chars (u "?"); WhiteSpace; EndOfInput]);
      Seq (Alt (List.map Chars foreign_salutations))
          (Alt [WhiteSpace; EndOfInput]) ].
  cbn [existsb]. rewrite orb_false_r, !orb_true_iff.
  rewrite (@words_match salutations _ false _ follow_space_or_end eq_refl Hs).
  rewrite (@words_match small_talk _ true _ follow_question_space_or_end eq_refl Hs).
  rewrite (@words_match foreign_salutations _ false _ follow_space_or_end eq_refl Hs).
  split.
  - intros [[w [rest [Hin [He Hb]]]]|[[w [rest [Hin [He Hb]]]]|[w [rest [Hin [He Hb]]]]]];
      exists w, rest; (split; [exact He|]).
    + left. split; [apply in_or_app; now left|exact Hb].
    + right. now split.
    + left. split; [apply in_or_app; now right|exact Hb].
  - intros [w [rest [He [[Hin Hb]|[Hin Hb]]]]].
    + apply in_app_or in Hin. destruct Hin as [Hin|Hin].
      * left. now exists w, rest.
      * right. right. now exists w, rest.
    + right. left. now exists w, rest.
Qed.

Ltac prune_units :=
  repeat (match goal with
          | |- context [N.leb ?a ?b] => destruct (N.leb_spec a b)
          | |- context [N.eqb ?a ?b] => destruct (N.eqb_spec a b)
          end; try lia).

Lemma is_space_letter (c : N) : 33 <= c <= 159 -> is_space c = false.
Proof. intro H. unfold is_space. prune_units; try reflexivity. Qed.

Lemma is_space_fold (c : N) : is_space (ascii_fold c) = is_space c.
Proof.
  unfold ascii_fold.
  destruct (N.leb_spec 65 c); destruct (N.leb_spec c 90); cbn [andb];
    try reflexivity.
  rewrite !is_space_letter by lia. reflexivity.
Qed.

Lemma lower_unit_fold (c : N) : lower_unit (ascii_fold c) = lower_unit c.
Proof.
  unfold ascii_fold.
  destruct (N.leb_spec 65 c); destruct (N.leb_spec c 90); cbn [andb];
    try reflexivity.
  unfold lower_unit. prune_units; try reflexivity.
Qed.

Lemma is_space_cases (c : N) :
  is_space c = true ->
  9 <= c <= 13 \/ c = 32 \/ c = 160 \/ c = 5760 \/ 8192 <= c <= 8202
  \/ c = 8232 \/ c = 8233 \/ c = 8239 \/ c = 8287 \/ c = 12288 \/ c = 65279.
Proof.
  unfold is_space.
  rewrite !orb_true_iff, !andb_true_iff, !N.leb_le, !N.eqb_eq. tauto.
Qed.

Lemma lower_unit_space (c : N) : is_space c = true -> lower_unit c = [c].
Proof.
  intro H. apply is_space_cases in H. unfold lower_unit.
  prune_units; cbn [andb negb]; try reflexivity; lia.
Qed.

Lemma trim_start_map_fold (s : jsstring) :
  trim_start (List.map ascii_fold s) = List.map ascii_fold (trim_start s).
Proof.
  induction s as [|c s IH]; simpl; [reflexivity|].
  rewrite is_space_fold. now destruct (is_space c).
Qed.

Lemma trim_map_fold (s : jsstring) :
  trim (List.map ascii_fold s) = List.map ascii_fold (trim s).
Proof.
  unfold trim.
  now rewrite trim_start_map_fold, <- map_rev, trim_start_map_fold, map_rev.
Qed.

Lemma toLowerCase_map_fold (s : jsstring) :
  toLowerCase (List.map ascii_fold s) = toLowerCase s.
Proof.
  unfold toLowerCase. induction s as [|c s IH]; simpl; [reflexivity|].
  now rewrite lower_unit_fold, IH.
Qed.

Lemma isGreeting_fold (q : jsstring) :
  isGreeting (List.map ascii_fold q) = isGreeting q.
Proof.
  unfold isGreeting. now rewrite trim_map_fold, toLowerCase_map_fold.
Qed.

(** X2. White space around a query does not change its classification. *)
Theorem isGreeting_padding (pre q post : jsstring) :
  blank pre = true -> blank post = true ->
  isGreeting (pre ++ q ++ post) = isGreeting q.
Proof.
  intros Hpre Hpost. unfold isGreeting. now rewrite trim_pad.
Qed.

(** X3. A query that is empty or holds only white space is not a
    greeting. *)
Theorem isGreeting_blank (q : jsstring) :
  blank q = true -> isGreeting q = false.
Proof.
  intro H. unfold isGreeting. now rewrite trim_blank.
Qed.

(** X4. The classification does not depend on the case of ASCII letters: two
    queries that agree once their capitals A-Z are turned into small letters
    are classified alike. *)
Theorem isGreeting_case_insensitive (q q' : jsstring) :
  List.map ascii_fold q = List.map ascii_fold q' ->
  isGreeting q = isGreeting q'.
Proof.
  intro H. rewrite <- (isGreeting_fold q), <- (isGreeting_fold q'). now rewrite H.
Qed.

Lemma trim_end_step (y : N) (s : jsstring) :
  rev (trim_start (rev (y :: s)))
  = if blank (y :: s) then [] else y :: rev (trim_start (rev s)).
Proof.
  destruct (is_space y) eqn:Hy.
  - change (blank (y :: s)) with (is_space y && blank s). rewrite Hy. cbn [andb].
    simpl rev at 2. destruct (blank s) eqn:Hs.
    + rewrite trim_start_app_blank by now rewrite blank_rev.
      simpl. now rewrite Hy.
    + rewrite trim_start_app.
      * now rewrite rev_app_distr.
      * intro E. apply trim_start_nil_blank in E. rewrite blank_rev in E.
        congruence.
  - change (blank (y :: s)) with (is_space y && blank s). rewrite Hy. cbn [andb].
    now apply trim_end_cons.
Qed.

Lemma trim_end_app_unit (a : jsstring) (x : N) (t : jsstring) :
  is_space x = false ->
  rev (trim_start (rev (a ++ x :: t))) = a ++ x :: rev (trim_start (rev t)).
Proof.
  intro Hx. induction a as [|y a IH].
  - now apply trim_end_cons.
  - cbn [app]. rewrite trim_end_step, IH.
    change (blank (y :: a ++ x :: t)) with (is_space y && blank (a ++ x :: t)).
    rewrite blank_app. change (blank (x :: t)) with (is_space x && blank t).
    rewrite Hx, andb_false_r, andb_false_r. reflexivity.
Qed.

Lemma plain_word_greeting (w : jsstring) :
  In w greeting_words -> plain_word w = true.
Proof.
  assert (H : forallb plain_word greeting_words = true) by reflexivity.
  rewrite forallb_forall in H. apply H.
Qed.

Lemma trim_plain_app (w t : jsstring) :
  plain_word w = true ->
  trim (w ++ t) = w ++ rev (trim_start (rev t)) /\ toLowerCase w = w.
Proof.
  unfold plain_word. intro H.
  destruct w as [|x w1]; [discriminate|].
  destruct (rev (x :: w1)) as [|y r] eqn:Er; [discriminate|].
  apply andb_true_iff in H. destruct H as [H Hl].
  apply andb_true_iff in H. destruct H as [Hx Hy].
  apply negb_true_iff in Hx, Hy. apply jsstring_eqb_eq in Hl.
  split; [|exact Hl].
  assert (Ew : x :: w1 = rev r ++ [y]).
  { rewrite <- (rev_involutive (x :: w1)), Er. reflexivity. }
  assert (Es : trim_start ((x :: w1) ++ t) = (x :: w1) ++ t).
  { cbn [app]. now apply trim_start_fixed. }
  unfold trim. rewrite Es, Ew, <- !app_assoc.
  now apply trim_end_app_unit.
Qed.

Lemma boundary_weaken (rest : jsstring) : boundary false rest -> boundary true rest.
Proof.
  intros [H|[c [r [H [Hs|[Hq _]]]]]]; [now left| |discriminate].
  right. exists c, r. auto.
Qed.

Lemma greeting_word_kind (w rest : jsstring) :
  In w greeting_words -> boundary false rest ->
  (In w (salutations ++ foreign_salutations) /\ boundary false rest)
  \/ (In w small_talk /\ boundary true rest).
Proof.
  unfold greeting_words. intros Hin Hb.
  apply in_app_or in Hin. destruct Hin as [Hin|Hin].
  - left. split; [apply in_or_app; now left|exact Hb].
  - apply in_app_or in Hin. destruct Hin as [Hin|Hin].
    + right. split; [exact Hin|now apply boundary_weaken].
    + left. split; [apply in_or_app; now right|exact Hb].
Qed.

(** X5. A query made of one of the fifteen greeting words, alone or followed
    by white space and anything at all, is a greeting; so is one of the four
    phrases of the second pattern followed by a question mark and
    anything. *)
Theorem greeting_word_then_anything (w rest : jsstring) (c : N) :
  In w greeting_words ->
  isGreeting w = true
  /\ (is_space c = true -> isGreeting (w ++ c :: rest) = true)
  /\ (In w small_talk -> isGreeting (w ++ 63 :: rest) = true).
Proof.
  intro Hin. pose proof (@plain_word_greeting w Hin) as Hp.
  split; [|split].
  - apply isGreeting_spec. exists w, [].
    destruct (@trim_plain_app w [] Hp) as [Ht Hl].
    rewrite app_nil_r in Ht. rewrite Ht. cbn. rewrite app_nil_r. split; [exact Hl|].
    apply greeting_word_kind; [exact Hin|now left].
  - intro Hc. apply isGreeting_spec.
    destruct (@trim_plain_app w (c :: rest) Hp) as [Ht Hl].
    exists w, (toLowerCase (rev (trim_start (rev (c :: rest))))).
    split.
    + rewrite Ht. unfold toLowerCase. rewrite flat_map_app. now f_equal.
    + apply greeting_word_kind; [exact Hin|].
      rewrite trim_end_step. destruct (blank (c :: rest)); [now left|].
      right. exists c, (toLowerCase (rev (trim_start (rev rest)))).
      split; [|now left].
      unfold toLowerCase. cbn [flat_map]. now rewrite lower_unit_space.
  - intro Hs. apply isGreeting_spec.
    destruct (@trim_plain_app w (63 :: rest) Hp) as [Ht Hl].
    exists w, (63 :: toLowerCase (rev (trim_start (rev rest)))).
    split.
    + rewrite Ht, trim_end_step.
      change (blank (63 :: rest)) with false. cbv iota.
      unfold toLowerCase. rewrite flat_map_app. now f_equal.
    + right. split; [exact Hs|]. right. eexists _, _. split; [reflexivity|].
      now right.
Qed.

(** ** More about the handler *)

Lemma decode_none_unreadable (req : Request) :
  decode req = None -> unreadable req.
Proof.
  unfold decode.
  destruct (req_json req) as [body|] eqn:Hb; [|intros _; now apply invalid_json].
  destruct (prop (u "messages") body) as [messages|] eqn:Hm.
  - assert (Hu : exists x, prop (u "userId") body = Returned x)
      by (destruct body; simpl in *; try discriminate; eauto).
    assert (Hp : exists x, prop (u "persona") body = Returned x)
      by (destruct body; simpl in *; try discriminate; eauto).
    destruct Hu as [userId ->]. destruct Hp as [rawPersona ->].
    destruct messages as [| | | | |items|];
      try (intros _; apply messages_not_array with body;
           [exact Hb|intros items; rewrite Hm; discriminate]).
    destruct items as [|m items] using rev_ind.
    + intros _. now apply messages_empty with body.
    + rewrite latest_of_snoc. intro H.
      apply latest_without_text with body items m; [exact Hb|exact Hm|].
      intros q Hq. rewrite Hq in H. discriminate H.
  - intros _. apply messages_not_array with body; [exact Hb|].
    intros items. rewrite Hm. discriminate.
Qed.

(** X6. The handler makes no external call at all exactly when the request
    is unreadable (body not JSON, no array under [messages], empty array, or
    last message without string content); every other request reaches a
    provider. *)
Theorem no_call_iff_unreadable (w : World) (req : Request) :
  snd (serve w req) = [] <-> unreadable req.
Proof.
  split.
  - intro H. apply decode_none_unreadable.
    destruct (decode req) as [t|] eqn:Hd; [exfalso|reflexivity].
    destruct (isGreeting (turn_query t)) eqn:Hg.
    + rewrite (greeting_run w _ Hd Hg) in H. cbv zeta in H.
      destruct (streamText w _ _); discriminate H.
    + rewrite (regular_run w _ Hd Hg) in H. cbv zeta in H.
      destruct (embeddings_create w (turn_query t)) as [[|e data]|];
        try discriminate H.
      destruct (pool_query_fails w e); [discriminate H|].
      destruct (map_outcome role_and_content (turn_previous t));
        [|discriminate H].
      destruct (streamText w _ _); discriminate H.
  - intro H. apply unreadable_decode in H.
    now rewrite (serve_undecodable w _ H).
Qed.

(** X7. Every request is answered, by the 500 JSON error or by a data
    stream; a data stream is the one the completion provider returned, and
    it is returned only when the completion call and the memory write both
    succeeded, as the last two calls of the request. *)
Theorem response_is_stream_or_error (w : World) (req : Request) :
  fst (serve w req) = Returned internal_server_error
  \/ exists stream uid sent memory earlier,
       fst (serve w req) = Returned (DataStreamResponse stream)
       /\ streamText w uid sent = Some stream
       /\ addMemories w memory uid (MEM0_API_KEY w) = true
       /\ snd (serve w req)
          = earlier ++ [StreamText uid sent;
                        AddMemories memory uid (MEM0_API_KEY w)].
Proof.
  destruct (decode req) as [t|] eqn:Hd.
  - destruct (isGreeting (turn_query t)) eqn:Hg.
    + rewrite (greeting_run w _ Hd Hg). cbv zeta.
      destruct (streamText w _ _) as [stream|] eqn:Hs; [|now left].
      destruct (addMemories w _ _ _) eqn:Ha; [|now left].
      right. exists stream, (turn_userId t), (greeting_prompt w t),
               (turn_previous t ++ greeting_pair w (turn_query t)), [].
      auto.
    + rewrite (regular_run w _ Hd Hg). cbv zeta.
      destruct (embeddings_create w (turn_query t)) as [[|e data]|];
        try (now left).
      destruct (pool_query_fails w e); [now left|].
      destruct (map_outcome role_and_content (turn_previous t)) as [history|];
        [|now left].
      destruct (streamText w _ _) as [stream|] eqn:Hs; [|now left].
      destruct (addMemories w _ _ _) eqn:Ha; [|now left].
      right. exists stream, (turn_userId t),
               (updated_messages (turn_persona t) (retrieved_context w e)
                                 history (turn_query t)),
               (updated_messages (turn_persona t) (retrieved_context w e)
                                 history (turn_query t)),
               [EmbeddingsCreate (turn_query t); PoolQuery e].
      auto.
  - rewrite (serve_undecodable w _ Hd). now left.
Qed.

Lemma split_position {A : Type} (before after l : list A) (c : A) :
  before ++ c :: after = l ->
  exists n, nth_error l n = Some c /\ after = skipn (S n) l.
Proof.
  intros <-. induction before as [|a before [n [Hn Ha]]].
  - exists 0%nat. split; reflexivity.
  - exists (S n). split; [exact Hn|exact Ha].
Qed.

Ltac at_position Hn Ha :=
  match type of Hn with
  | nth_error _ ?n = _ =>
      destruct n as [|[|[|[|n]]]]; cbn [nth_error skipn snd] in Hn, Ha;
      rewrite ?nth_error_nil in Hn; try discriminate Hn;
      injection Hn as <-; subst
  end.

(** X8. No call follows a failed one: when a call of the trace is rejected
    (or the embedding response holds no data), it is the last call of the
    request and the response is the 500 JSON error. *)
Theorem no_call_after_failure (w : World) (req : Request)
        (before after : trace) (c : call) :
  snd (serve w req) = before ++ c :: after ->
  rejected w c = true ->
  after = [] /\ fst (serve w req) = Returned internal_server_error.
Proof.
  intros H Hr. symmetry in H. apply split_position in H.
  destruct H as [n [Hn Ha]].
  destruct (decode req) as [t|] eqn:Hd.
  - destruct (isGreeting (turn_query t)) eqn:Hg.
    + rewrite (greeting_run w _ Hd Hg) in *. cbv zeta in *.
      destruct (streamText w _ _) as [stream|] eqn:Hs.
      * destruct (addMemories w _ _ _) eqn:Hm;
          at_position Hn Ha; cbn [rejected] in Hr;
          rewrite ?Hs, ?Hm in Hr; try discriminate Hr; auto.
      * at_position Hn Ha; auto.
    + rewrite (regular_run w _ Hd Hg) in *. cbv zeta in *.
      destruct (embeddings_create w (turn_query t)) as [[|e data]|] eqn:He;
        try (at_position Hn Ha; auto; fail).
      destruct (pool_query_fails w e) eqn:Hq.
      { at_position Hn Ha; cbn [rejected] in Hr;
          rewrite ?He, ?Hq in Hr; try discriminate Hr; auto. }
      destruct (map_outcome role_and_content (turn_previous t)) as [history|].
      2:{ at_position Hn Ha; cbn [rejected] in Hr;
          rewrite ?He, ?Hq in Hr; try discriminate Hr; auto. }
      destruct (streamText w _ _) as [stream|] eqn:Hs.
      * destruct (addMemories w _ _ _) eqn:Hm;
          at_position Hn Ha; cbn [rejected] in Hr;
          rewrite ?He, ?Hq, ?Hs, ?Hm in Hr; try discriminate Hr; auto.
      * at_position Hn Ha; cbn [rejected] in Hr;
          rewrite ?He, ?Hq, ?Hs in Hr; try discriminate Hr; auto.
  - rewrite (serve_undecodable w _ Hd) in *. cbn [snd] in Hn.
    destruct n; discriminate Hn.
Qed.

Lemma decode_userId (req : Request) (body : value) (t : turn) :
  req_json req = Returned body ->
  decode req = Some t ->
  prop (u "userId") body = Returned (turn_userId t).
Proof.
  unfold decode. intros ->.
  destruct (prop (u "messages") body) as [messages|]; [|discriminate].
  destruct (prop (u "userId") body) as [userId|]; [|discriminate].
  destruct (prop (u "persona") body) as [rawPersona|]; [|discriminate].
  destruct (latest_and_previous messages) as [[userQuery previous]|];
    [|discriminate].
  destruct userQuery; try discriminate.
  intro H. injection H as <-. reflexivity.
Qed.

(** X9. The memory store is written only after the completion provider
    accepted its call, for the same user. On the regular path it receives
    the very sequence that was sent to the completion provider, system
    prompt included; on the greeting path it receives that sequence without
    its system message. *)
Theorem memory_follows_completion (w : World) (req : Request) (t : turn) :
  decode req = Some t ->
  forall memory uid key,
    In (AddMemories memory uid key) (snd (serve w req)) ->
    exists sent stream,
      In (StreamText uid sent) (snd (serve w req))
      /\ streamText w uid sent = Some stream
      /\ sent = if isGreeting (turn_query t)
                then message (VStr (u "system"))
                             (VStr (SYSTEM_PROMPTS (turn_persona t))) :: memory
                else memory.
Proof.
  intros Hd memory uid key.
  destruct (isGreeting (turn_query t)) eqn:Hg.
  - rewrite (greeting_run w _ Hd Hg). cbv zeta. intro Hin.
    destruct (streamText w _ _) as [stream|] eqn:Hs; pick_call Hin.
    injection Hin as <- <- _.
    exists (greeting_prompt w t), stream. cbn [snd In]. auto.
  - rewrite (regular_run w _ Hd Hg). cbv zeta. intro Hin.
    destruct (embeddings_create w (turn_query t)) as [[|e data]|];
      try (pick_call Hin; fail).
    destruct (pool_query_fails w e); [pick_call Hin|].
    destruct (map_outcome role_and_content (turn_previous t)) as [history|];
      [|pick_call Hin].
    destruct (streamText w _ _) as [stream|] eqn:Hs; pick_call Hin.
    injection Hin as <- <- _.
    eexists _, stream. cbn [snd In]. split; [|split; [exact Hs|reflexivity]].
    auto.
Qed.

(** X10. The text sent to the embedding provider is the content of the last
    message of the request, unchanged (neither trimmed nor lower-cased), and
    the vector store is queried only with the first embedding that the
    provider returned for that text. *)
Theorem retrieval_chain (w : World) (req : Request) (body : value)
        (items : list value) :
  req_json req = Returned body ->
  prop (u "messages") body = Returned (VArr items) ->
  (forall input,
     In (EmbeddingsCreate input) (snd (serve w req)) ->
     isGreeting input = false
     /\ exists earlier latest,
          items = earlier ++ [latest]
          /\ prop (u "content") latest = Returned (VStr input))
  /\ (forall v,
        In (PoolQuery v) (snd (serve w req)) ->
        exists input data,
          In (EmbeddingsCreate input) (snd (serve w req))
          /\ embeddings_create w input = Some (v :: data)).
Proof.
  intros Hb Hm.
  destruct (decode req) as [t|] eqn:Hd.
  2:{ rewrite (serve_undecodable w _ Hd). split; intros x []. }
  destruct (decode_messages _ Hb Hm Hd) as [latest [Hi Hc]].
  destruct (isGreeting (turn_query t)) eqn:Hg.
  - rewrite (greeting_run w _ Hd Hg). cbv zeta.
    split; intros x Hin; destruct (streamText w _ _); pick_call Hin.
  - rewrite (regular_run w _ Hd Hg). cbv zeta. split.
    + intros input Hin.
      assert (Hq : input = turn_query t).
      { destruct (embeddings_create w (turn_query t)) as [[|e data]|];
          try (pick_call Hin; now injection Hin as <-).
        destruct (pool_query_fails w e);
          [pick_call Hin; now injection Hin as <-|].
        destruct (map_outcome role_and_content (turn_previous t));
          [|pick_call Hin; now injection Hin as <-].
        destruct (streamText w _ _); pick_call Hin; now injection Hin as <-. }
      subst input. split; [exact Hg|]. now exists (turn_previous t), latest.
    + intros v Hin.
      destruct (embeddings_create w (turn_query t)) as [[|e data]|] eqn:He;
        try (pick_call Hin; fail).
      exists (turn_query t), data.
      assert (Hv : v = e).
      { destruct (pool_query_fails w e);
          [pick_call Hin; now injection Hin as <-|].
        destruct (map_outcome role_and_content (turn_previous t));
          [|pick_call Hin; now injection Hin as <-].
        destruct (streamText w _ _); pick_call Hin; now injection Hin as <-. }
      subst v. split; [|exact He].
      destruct (pool_query_fails w e); [now left|].
      destruct (map_outcome role_and_content (turn_previous t)); [|now left].
      destruct (streamText w _ _); now left.
Qed.

(** X13. Every call to the completion provider and to the memory store
    carries the [userId] field of the body as it came, [undefined] when the
    field is missing; the memory store is also given the configured key. *)
Theorem user_id_is_forwarded (w : World) (req : Request) (body : value) :
  req_json req = Returned body ->
  (forall uid sent,
     In (StreamText uid sent) (snd (serve w req)) ->
     prop (u "userId") body = Returned uid)
  /\ (forall memory uid key,
        In (AddMemories memory uid key) (snd (serve w req)) ->
        prop (u "userId") body = Returned uid /\ key = MEM0_API_KEY w).
Proof.
  intro Hb.
  destruct (decode req) as [t|] eqn:Hd.
  2:{ rewrite (serve_undecodable w _ Hd).
      split; [intros ? ? []|intros ? ? ? []]. }
  pose proof (decode_userId _ Hb Hd) as Hu.
  destruct (isGreeting (turn_query t)) eqn:Hg.
  - rewrite (greeting_run w _ Hd Hg). cbv zeta. split.
    + intros uid sent Hin. destruct (streamText w _ _); pick_call Hin;
        now injection Hin as <- _.
    + intros memory uid key Hin. destruct (streamText w _ _); pick_call Hin.
      injection Hin as _ <- <-. now split.
  - rewrite (regular_run w _ Hd Hg). cbv zeta. split.
    + intros uid sent Hin.
      destruct (embeddings_create w (turn_query t)) as [[|e data]|];
        try (pick_call Hin; fail).
      destruct (pool_query_fails w e); [pick_call Hin|].
      destruct (map_outcome role_and_content (turn_previous t));
        [|pick_call Hin].
      destruct (streamText w _ _); pick_call Hin; now injection Hin as <- _.
    + intros memory uid key Hin.
      destruct (embeddings_create w (turn_query t)) as [[|e data]|];
        try (pick_call Hin; fail).
      destruct (pool_query_fails w e); [pick_call Hin|].
      destruct (map_outcome role_and_content (turn_previous t));
        [|pick_call Hin].
      destruct (streamText w _ _); pick_call Hin.
      injection Hin as _ <- <-. now split.
Qed.

(** ** The history of the regular branch *)

Lemma role_and_content_thrown (m : value) :
  role_and_content m = Thrown <-> m = VNull \/ m = VUndefined.
Proof.
  unfold role_and_content. destruct m; simpl; split;
    try discriminate; try (intros [H|H]; discriminate H); auto.
Qed.

Lemma prop_message (r c : value) :
  prop (u "role") (message r c) = Returned r
  /\ prop (u "content") (message r c) = Returned c.
Proof. split; reflexivity. Qed.

(** X14. The history is copied message by message: the copy succeeds exactly
    when no element is [null] or [undefined]; it has as many messages; and
    each copied message is the object made of the role and the content of
    its original, every other field being dropped. *)
Theorem history_is_reduced_to_role_and_content (l : list value) :
  ((forall m, In m l -> m <> VNull /\ m <> VUndefined)
   <-> exists l', map_outcome role_and_content l = Returned l')
  /\ forall l',
       map_outcome role_and_content l = Returned l' ->
       List.length l' = List.length l
       /\ Forall2 (fun m m' =>
                     exists r c,
                       prop (u "role") m = Returned r
                       /\ prop (u "content") m = Returned c
                       /\ m' = message r c
                       /\ role_and_content m' = Returned m') l l'.
Proof.
  split.
  - induction l as [|m l IH]; simpl.
    + split; [eauto|intros _ ? []].
    + split.
      * intro H. destruct (role_and_content m) as [b|] eqn:E.
        -- destruct IH as [IH _]. destruct IH as [l' ->]; [|eauto].
           intros x Hx. apply H. now right.
        -- apply role_and_content_thrown in E.
           destruct (H m (or_introl eq_refl)) as [H1 H2].
           destruct E; contradiction.
      * intros [l' H] x [<-|Hx].
        -- destruct (role_and_content m) eqn:E; [|discriminate].
           split; intro; subst; discriminate E.
        -- destruct (role_and_content m); [|discriminate].
           destruct (map_outcome role_and_content l) eqn:E; [|discriminate].
           apply IH; eauto.
  - induction l as [|m l IH]; simpl; intros l' H.
    + injection H as <-. split; [reflexivity|constructor].
    + destruct (role_and_content m) as [b|] eqn:E; [|discriminate].
      destruct (map_outcome role_and_content l) as [bs|]; [|discriminate].
      injection H as <-. destruct (IH bs eq_refl) as [Hlen Hall].
      split; [simpl; now rewrite Hlen|].
      constructor; [|exact Hall].
      unfold role_and_content in E.
      destruct (prop (u "role") m) as [r|]; [|discriminate].
      destruct (prop (u "content") m) as [c|]; [|discriminate].
      injection E as <-. exists r, c. repeat split; reflexivity.
Qed.

Lemma map_outcome_thrown {A B : Type} (f : A -> outcome B) (l : list A) (a : A) :
  In a l -> f a = Thrown -> map_outcome f l = Thrown.
Proof.
  intros Hin Hf. induction l as [|x l IH]; [contradiction|].
  simpl. destruct Hin as [->|Hin].
  - now rewrite Hf.
  - destruct (f x); [|reflexivity]. now rewrite IH.
Qed.

(** X11. On the regular path, a [null] (or [undefined]) element in the
    messages before the last one makes the request end with the 500 JSON
    error, after the embedding provider was called and before any call to
    the completion provider or to the memory store. *)
Theorem null_in_history_is_an_error (w : World) (req : Request) (t : turn)
        (m : value) :
  decode req = Some t ->
  isGreeting (turn_query t) = false ->
  In m (turn_previous t) ->
  m = VNull \/ m = VUndefined ->
  fst (serve w req) = Returned internal_server_error
  /\ attempts Embedding (snd (serve w req)) = 1%nat
  /\ attempts Completion (snd (serve w req)) = 0%nat
  /\ attempts Memory (snd (serve w req)) = 0%nat.
Proof.
  intros Hd Hg Hin Hm.
  assert (Hmap : map_outcome role_and_content (turn_previous t) = Thrown).
  { apply map_outcome_thrown with m; [exact Hin|].
    now apply role_and_content_thrown. }
  rewrite (regular_run w _ Hd Hg). cbv zeta. rewrite Hmap.
  destruct (embeddings_create w (turn_query t)) as [[|e data]|];
    try (repeat split; reflexivity).
  destruct (pool_query_fails w e); repeat split; reflexivity.
Qed.

(** ** The persona *)

(** X12. The roleplay template is used exactly when the persona field of the
    body is the string 'roleplay', in small letters; the two templates are
    different texts. *)
Theorem roleplay_only_when_asked (req : Request) (body field : value) (t : turn) :
  req_json req = Returned body ->
  prop (u "persona") body = Returned field ->
  decode req = Some t ->
  (turn_persona t = roleplay <-> field = VStr (u "roleplay"))
  /\ (SYSTEM_PROMPTS (turn_persona t) = roleplay_template
      <-> field = VStr (u "roleplay"))
  /\ roleplay_template <> general_template.
Proof.
  intros Hb Hp Hd. rewrite (decode_persona _ Hb Hp Hd).
  assert (Hne : roleplay_template <> general_template).
  { intro H. apply (f_equal (@List.length N)) in H. vm_compute in H.
    discriminate H. }
  assert (Hiff : select_persona (with_default field (VStr (u "general"))) = roleplay
                 <-> field = VStr (u "roleplay")).
  { split.
    - intro H. apply select_persona_roleplay in H.
      destruct field; simpl in H; try discriminate; exact H.
    - intros ->. reflexivity. }
  split; [exact Hiff|]. split; [|exact Hne].
  rewrite <- Hiff.
  destruct (select_persona (with_default field (VStr (u "general"))));
    cbn [SYSTEM_PROMPTS]; split; try reflexivity; try discriminate;
    intro H; symmetry in H; contradiction.
Qed.

(** ** More about the similarity query *)

Lemma filter_nil_iff {A : Type} (f : A -> bool) (l : list A) :
  filter f l = [] <-> forall x, In x l -> f x = false.
Proof.
  induction l as [|a l IH]; simpl.
  - split; [intros _ x []|reflexivity].
  - destruct (f a) eqn:E; split.
    + discriminate.
    + intro H. specialize (H a (or_introl eq_refl)). congruence.
    + intros H x [<-|Hx]; [exact E|]. now apply IH.
    + intro H. apply IH. intros x Hx. apply H. now right.
Qed.

Lemma similarity_query_length (dist : list Q -> list Q -> Q)
      (table : list document) (v : list Q) :
  List.length (similarity_query dist table v)
  = Nat.min 5 (List.length (filter above_threshold (select_from dist table v))).
Proof.
  unfold similarity_query, limit. rewrite length_firstn. f_equal.
  apply Permutation_length, order_by_similarity_desc_perm.
Qed.

(** X15. The query returns as many passages as clear the threshold, up to
    five: [min 5 k] rows when [k] documents of the table score above 0.7. *)
Theorem similarity_query_count (dist : list Q -> list Q -> Q)
        (table : list document) (v : list Q) :
  List.length (similarity_query dist table v)
  = Nat.min 5 (List.length
                 (filter (fun d => negb (Qle_bool (1 - dist (doc_vector d) v) (7 # 10)))
                         table)).
Proof.
  rewrite similarity_query_length. f_equal. unfold select_from.
  induction table as [|d table IH]; simpl; [reflexivity|].
  unfold above_threshold at 1. simpl.
  destruct (Qle_bool (1 - dist (doc_vector d) v) (7 # 10)); simpl; now rewrite IH.
Qed.

(** X16. The retrieved context is empty when no document of the table
    scores above 0.7, the empty table included: the query then returns no
    row, and conversely a query without rows means that every document
    scores at most 0.7; [findSimilarContent] then returns the empty string
    when the store answers. *)
Theorem no_passage_no_context (w : World) (embedding : list Q) (t : trace) :
  (similarity_query (cosine_distance w) (documents_2 w) embedding = []
   <-> forall d, In d (documents_2 w) ->
                 (1 - cosine_distance w (doc_vector d) embedding <= 7 # 10)%Q)
  /\ ((forall d, In d (documents_2 w) ->
                 (1 - cosine_distance w (doc_vector d) embedding <= 7 # 10)%Q) ->
      pool_query_fails w embedding = false ->
      findSimilarContent w embedding t = (Returned [], t ++ [PoolQuery embedding])).
Proof.
  assert (Hiff : similarity_query (cosine_distance w) (documents_2 w) embedding = []
                 <-> forall d, In d (documents_2 w) ->
                     (1 - cosine_distance w (doc_vector d) embedding <= 7 # 10)%Q).
  { rewrite <- length_zero_iff_nil, similarity_query_length.
    split.
    - intros H d Hd.
      assert (Hf : filter above_threshold
                     (select_from (cosine_distance w) (documents_2 w) embedding) = []).
      { apply length_zero_iff_nil.
        destruct (List.length (filter above_threshold
                    (select_from (cosine_distance w) (documents_2 w) embedding)));
          [reflexivity|discriminate H]. }
      rewrite filter_nil_iff in Hf.
      specialize (Hf {| contents := doc_contents d;
                        similarity := 1 - cosine_distance w (doc_vector d) embedding |}).
      unfold above_threshold in Hf. simpl in Hf.
      apply Qle_bool_iff. apply negb_false_iff. apply Hf.
      unfold select_from. apply in_map_iff. now exists d.
    - intro H.
      assert (Hf : filter above_threshold
                     (select_from (cosine_distance w) (documents_2 w) embedding) = []).
      { apply filter_nil_iff. intros r Hr. unfold select_from in Hr.
        apply in_map_iff in Hr. destruct Hr as [d [<- Hd]].
        unfold above_threshold. simpl. apply negb_false_iff.
        apply Qle_bool_iff. now apply H. }
      now rewrite Hf. }
  split; [exact Hiff|].
  intros H Hq. apply Hiff in H.
  unfold findSimilarContent, bind, emit, ret. now rewrite Hq, H.
Qed.

(** ** The logging route *)

Lemma prop_defined (key : jsstring) (body : value) :
  body <> VNull /\ body <> VUndefined ->
  exists x, prop key body = Returned x.
Proof.
  intros [H1 H2]. destruct body; simpl; eauto; contradiction.
Qed.

(** X17. The logging endpoint answers [{success: true}] exactly when the
    body is JSON other than [null] and the traced [storeInteraction]
    resolves, whatever fields the body has (a missing field is stored as
    [undefined]); otherwise it answers the 500 error 'Failed to log
    interaction'. [storeInteraction] is called at most once, and not at all
    when the body cannot be read. *)
Theorem logging_outcome (rejects : value -> value -> value -> bool) (req : Request) :
  (fst (logging_POST rejects req) = logged
   \/ fst (logging_POST rejects req) = failed_to_log)
  /\ (fst (logging_POST rejects req) = logged
      <-> exists body,
            req_json req = Returned body
            /\ body <> VNull /\ body <> VUndefined
            /\ exists uid q r,
                 prop (u "userId") body = Returned uid
                 /\ prop (u "question") body = Returned q
                 /\ prop (u "response") body = Returned r
                 /\ rejects uid q r = false
                 /\ snd (logging_POST rejects req) = [StoreInteraction uid q r])
  /\ (List.length (snd (logging_POST rejects req)) <= 1)%nat
  /\ ((req_json req = Thrown \/ req_json req = Returned VNull) ->
      logging_POST rejects req = (failed_to_log, [])).
Proof.
  unfold logging_POST.
  destruct (req_json req) as [body|] eqn:Hb.
  - destruct (prop (u "userId") body) as [uid|] eqn:Hu.
    + assert (Hn : body <> VNull /\ body <> VUndefined)
        by (split; intros ->; discriminate Hu).
      destruct (prop_defined (u "question") Hn) as [q Hq].
      destruct (prop_defined (u "response") Hn) as [r Hrr].
      rewrite Hq, Hrr. destruct (rejects uid q r) eqn:Hr; cbn [fst snd].
      * split; [now right|]. split; [|split; [cbn; lia|]].
        -- split; [discriminate|].
           intros [b [Eb [_ [_ [uid' [q' [r' [Hu' [Hq' [Hr' [Hf _]]]]]]]]]]].
           injection Eb as <-. congruence.
        -- intros [H|H]; [discriminate H|]. injection H as ->.
           discriminate Hu.
      * split; [now left|]. split; [|split; [cbn; lia|]].
        -- split; [|reflexivity]. intros _. exists body.
           destruct Hn as [H1 H2]. repeat split; try assumption.
           now exists uid, q, r.
        -- intros [H|H]; [discriminate H|]. injection H as ->.
           discriminate Hu.
    + cbn [fst snd]. split; [now right|]. split; [|split; [cbn; lia|reflexivity]].
      split; [discriminate|].
      intros [b [Eb [_ [_ [uid' [q' [r' [Hu' _]]]]]]]].
      injection Eb as <-. congruence.
  - cbn [fst snd]. split; [now right|]. split.
    + split; [discriminate|]. intros [b [Eb _]]. discriminate Eb.
    + split; [cbn; lia|reflexivity].
Qed.

(** ** The submit handler of the chat page *)

Lemma is_empty_trim (s : jsstring) : is_empty (trim s) = blank s.
Proof.
  destruct (trim s) as [|c r] eqn:E; simpl.
  - symmetry. now apply trim_nil_blank.
  - destruct (blank s) eqn:B; [|reflexivity].
    rewrite trim_blank in E by exact B. discriminate E.
Qed.

(** X18. [enhancedSubmit] always cancels the default submission first. With
    a blank input, or while a reply is loading, it does nothing else.
    Otherwise it records the trimmed input as the current question, which is
    then not empty and neither starts nor ends with white space, and calls
    [handleSubmit] once; an error message is set only when that call
    fails. *)
Theorem enhancedSubmit_guard (input : jsstring) (isLoading rejects : bool) :
  (blank input || isLoading = true ->
   enhancedSubmit input isLoading rejects = [PreventDefault])
  /\ (blank input || isLoading = false ->
      enhancedSubmit input isLoading rejects
      = PreventDefault :: SetCurrentQuestion (trim input) :: HandleSubmit
        :: (if rejects then [SetError (u "Failed to process your request")] else [])
      /\ exists c r,
           trim input = c :: r
           /\ is_space c = false
           /\ is_space (last (trim input) c) = false).
Proof.
  unfold enhancedSubmit. rewrite is_empty_trim. split; intro H; rewrite H.
  - reflexivity.
  - split; [reflexivity|].
    apply orb_false_iff in H. destruct H as [Hb _].
    destruct (trim input) as [|c r] eqn:E.
    + apply trim_nil_blank in E. congruence.
    + exists c, r. split; [reflexivity|]. split.
      * now apply trim_head in E.
      * destruct (@exists_last _ (c :: r)) as [r' [x Ex]]; [discriminate|].
        rewrite Ex, last_last. rewrite Ex in E. now apply trim_last in E.
Qed.


(** ** The further properties at concrete inputs *)

Lemma isGreeting_padding_hello :
  isGreeting ([32; 9] ++ u "Hello" ++ [10]) = isGreeting (u "Hello").
Proof.
  exact (@isGreeting_padding [32; 9] (u "Hello") [10] eq_refl eq_refl).
Defined.

Lemma isGreeting_blank_spaces : isGreeting [32; 10; 160] = false.
Proof. exact (@isGreeting_blank [32; 10; 160] eq_refl). Defined.

Lemma isGreeting_case_insensitive_hello :
  isGreeting (u "HELLO there") = isGreeting (u "hello there").
Proof.
  exact (@isGreeting_case_insensitive (u "HELLO there") (u "hello there") eq_refl).
Defined.

Lemma greeting_word_then_anything_morning :
  isGreeting (u "good morning") = true
  /\ isGreeting (u "good morning" ++ 32 :: u "team, what is AWP?") = true.
Proof.
  destruct (@greeting_word_then_anything (u "good morning")
              (u "team, what is AWP?") 32)
    as [H1 [H2 _]].
  - right. right. right. left. reflexivity.
  - split; [exact H1|exact (H2 eq_refl)].
Defined.

Lemma no_call_after_failure_store_down :
  snd (serve store_down_world awp_request)
  = [EmbeddingsCreate (u "What is AWP?")] ++ PoolQuery [1; 0]%Q :: []
  /\ fst (serve store_down_world awp_request) = Returned internal_server_error.
Proof.
  split; [reflexivity|].
  exact (proj2 (@no_call_after_failure store_down_world awp_request
                  [EmbeddingsCreate (u "What is AWP?")] [] (PoolQuery [1; 0]%Q)
                  eq_refl eq_refl)).
Defined.

Lemma memory_follows_completion_follow_up :
  exists sent stream,
    In (StreamText (VStr (u "u1")) sent) (snd (serve happy_world follow_up_request))
    /\ streamText happy_world (VStr (u "u1")) sent = Some stream
    /\ In (AddMemories sent (VStr (u "u1")) (VStr (u "key")))
          (snd (serve happy_world follow_up_request)).
Proof.
  pose (final := updated_messages general
                   (retrieved_context happy_world [1; 0]%Q)
                   (turn_previous follow_up_turn) (u "And what is WAC?")).
  assert (Hin : In (AddMemories final (VStr (u "u1")) (VStr (u "key")))
                   (snd (serve happy_world follow_up_request))).
  { right. right. right. left. reflexivity. }
  destruct (@memory_follows_completion happy_world follow_up_request
              follow_up_turn eq_refl final _ _ Hin)
    as [sent [stream [Hs [Ht He]]]].
  exists sent, stream. split; [exact Hs|]. split; [exact Ht|].
  change (isGreeting (turn_query follow_up_turn)) with false in He.
  now rewrite He.
Defined.

Lemma retrieval_chain_awp :
  exists data,
    In (EmbeddingsCreate (u "What is AWP?")) (snd (serve happy_world awp_request))
    /\ embeddings_create happy_world (u "What is AWP?") = Some ([1; 0]%Q :: data).
Proof.
  destruct (@retrieval_chain happy_world awp_request
              (body_of [says "user" "What is AWP?"] [])
              [says "user" "What is AWP?"] eq_refl eq_refl)
    as [_ Hv].
  destruct (Hv [1; 0]%Q) as [input [data [Hin He]]].
  - right. left. reflexivity.
  - exists data. split; [|exact He].
    left. reflexivity.
Defined.

Lemma null_in_history_is_an_error_sample :
  fst (serve happy_world broken_history_request) = Returned internal_server_error
  /\ attempts Embedding (snd (serve happy_world broken_history_request)) = 1%nat
  /\ attempts Completion (snd (serve happy_world broken_history_request)) = 0%nat
  /\ attempts Memory (snd (serve happy_world broken_history_request)) = 0%nat.
Proof.
  apply (@null_in_history_is_an_error happy_world broken_history_request
           {| turn_userId := VStr (u "u1"); turn_persona := general;
              turn_query := u "What is AWP?"; turn_previous := [VNull] |}
           VNull eq_refl eq_refl).
  - left. reflexivity.
  - left. reflexivity.
Defined.

Lemma roleplay_only_when_asked_begin :
  SYSTEM_PROMPTS roleplay = roleplay_template
  /\ roleplay_template <> general_template.
Proof.
  destruct (@roleplay_only_when_asked roleplay_request
              (body_of [says "user" "Begin"] [(u "persona", VStr (u "roleplay"))])
              (VStr (u "roleplay"))
              {| turn_userId := VStr (u "u1"); turn_persona := roleplay;
                 turn_query := u "Begin"; turn_previous := [] |}
              eq_refl eq_refl eq_refl)
    as [_ [Hp Hne]].
  split; [|exact Hne]. apply Hp. reflexivity.
Defined.

Lemma user_id_is_forwarded_hello :
  prop (u "userId") (body_of [says "user" "Hello"] []) = Returned (VStr (u "u1"))
  /\ In (StreamText (VStr (u "u1")) (greeting_prompt happy_world
           {| turn_userId := VStr (u "u1"); turn_persona := general;
              turn_query := u "Hello"; turn_previous := [] |}))
        (snd (serve happy_world hello_request)).
Proof.
  assert (Hin : In (StreamText (VStr (u "u1")) (greeting_prompt happy_world
                      {| turn_userId := VStr (u "u1"); turn_persona := general;
                         turn_query := u "Hello"; turn_previous := [] |}))
                   (snd (serve happy_world hello_request))).
  { left. reflexivity. }
  destruct (@user_id_is_forwarded happy_world hello_request
              (body_of [says "user" "Hello"] []) eq_refl)
    as [Hs _].
  split; [exact (Hs _ _ Hin)|exact Hin].
Defined.
